(** * MountFS: the mount table and path delegation of [fs/mountfs.py]

    A shallow embedding of the [MountFS] class: the mount table, the
    resolution of a path to a (filesystem, path) pair, the lifecycle
    ([mount], [close]) and the proxied filesystem operations, followed by
    the properties that the specification states about them.

    Python objects with identity (filesystems) are references; the calls
    that [MountFS] makes on other filesystems are recorded in a trace and
    answered by an oracle, so that every statement holds whatever the
    delegates do.  Exceptions do not roll back the state: a computation is
    a function from worlds to a result and a world. *)

From Stdlib Require Import String Ascii List Bool Arith ZArith Lia.
Import ListNotations.
Local Open Scope list_scope.
Local Open Scope string_scope.

(** ** Python string primitives used by [mountfs.py] *)

Module PyStr.

(** The path separator. *)
Definition sep : ascii := "/"%char.

(** [s.startswith(p)] *)
Fixpoint startswith (s p : string) {struct p} : bool :=
  match p with
  | EmptyString => true
  | String c p' =>
      match s with
      | EmptyString => false
      | String d s' => Ascii.eqb c d && startswith s' p'
      end
  end.

(** [s[n:]] *)
Fixpoint slice_from (n : nat) (s : string) : string :=
  match n with
  | O => s
  | S n' =>
      match s with
      | EmptyString => EmptyString
      | String _ s' => slice_from n' s'
      end
  end.

(** [s.endswith(p)] *)
Definition endswith (s p : string) : bool :=
  Nat.leb (String.length p) (String.length s)
  && String.eqb (slice_from (String.length s - String.length p) s) p.

(** [s.rstrip(c)] for a one-character set [c]. *)
Fixpoint rstrip (c : ascii) (s : string) : string :=
  match s with
  | EmptyString => EmptyString
  | String a s' =>
      match rstrip c s' with
      | EmptyString => if Ascii.eqb a c then EmptyString else String a EmptyString
      | r => String a r
      end
  end.

(** ["//" in s] *)
Fixpoint has_double_sep (s : string) : bool :=
  match s with
  | EmptyString => false
  | String a s' =>
      match s' with
      | EmptyString => false
      | String b _ => (Ascii.eqb a sep && Ascii.eqb b sep) || has_double_sep s'
      end
  end.

(** [s.split(c)] *)
Fixpoint split (c : ascii) (s : string) : list string :=
  match s with
  | EmptyString => [EmptyString]
  | String a s' =>
      if Ascii.eqb a c then EmptyString :: split c s'
      else match split c s' with
           | [] => [String a EmptyString]
           | w :: ws => String a w :: ws
           end
  end.

(** [j.join(l)] *)
Fixpoint join (j : string) (l : list string) : string :=
  match l with
  | [] => EmptyString
  | [w] => w
  | w :: ws => w ++ j ++ join j ws
  end.

End PyStr.

(** ** Path helpers of [fs/path.py] *)

Module Path.
Import PyStr.

(** Modelled from the spec: [fs.path.abspath] is imported by
    [mountfs.py] but [fs/path.py] is not part of the source tree.  The
    specification describes it as "making a path absolute": a path
    that does not begin with the separator gets one in front. *)
Definition abspath (path : string) : string :=
  if startswith path "/" then path else "/" ++ path.

(** Modelled from the spec: [fs.path.forcedir] is imported by
    [mountfs.py] but [fs/path.py] is not part of the source tree.  The
    specification describes its result as the "separator-terminated
    form": a path that does not end with the separator gets one
    appended. *)
Definition forcedir (path : string) : string :=
  if endswith path "/" then path else path ++ "/".

(** One step of the component loop of the canonical form: the empty
    component and ["."] are dropped, [".."] removes the last component
    kept so far (and fails when there is none), anything else is kept. *)
Definition push_component (acc : option (list string)) (component : string)
  : option (list string) :=
  match acc with
  | None => None
  | Some components =>
      if String.eqb component "" || String.eqb component "." then Some components
      else if String.eqb component ".." then
             match rev components with
             | [] => None
             | _ :: r => Some (rev r)
             end
           else Some (components ++ [component])%list
  end.

(** Modelled from the spec: [fs.path.normpath] is imported by
    [mountfs.py] but [fs/path.py] is not part of the source tree.  The
    specification only says that it brings a path to its "canonical"
    form; this instance collapses repeated separators, removes a
    trailing separator, resolves ["."] and [".."] and keeps a leading
    separator.  [None] stands for the error raised on a path that
    climbs above the root.  The general theorems below take
    normalisation as a parameter; this instance serves the concrete
    scenarios. *)
Definition normpath (path : string) : option string :=
  let prefix := if startswith path "/" then "/" else "" in
  match fold_left push_component (split sep path) (Some []) with
  | None => None
  | Some components => Some (prefix ++ join "/" components)
  end.

End Path.

(** ** Objects, calls and exceptions *)

(** A filesystem object, compared by identity ([fs is self]). *)
Inductive fs_ref : Type :=
| SelfFS                (* the [MountFS] instance itself *)
| DefaultFS             (* the [MemoryFS()] made by [__init__] *)
| UserFS (id : nat).    (* any other filesystem object *)

Definition fs_ref_eqb (a b : fs_ref) : bool :=
  match a, b with
  | SelfFS, SelfFS => true
  | DefaultFS, DefaultFS => true
  | UserFS i, UserFS j => Nat.eqb i j
  | _, _ => false
  end.

(** Python values that [MountFS] passes through without looking inside. *)
Inductive pyvalue : Type :=
| PyNone
| PyBool (b : bool)
| PyInt (n : Z)
| PyStr (s : string)
| PyObject (id : nat).

Definition kwargs : Type := list (string * pyvalue).

(** A method call made on a delegate filesystem, with its arguments in
    the order of the delegate's signature. *)
Inductive fs_call : Type :=
| Getinfo (path : string) (namespaces : list string)
| Listdir (path : string)
| Makedir (path : string) (permissions : pyvalue) (recreate : bool)
| Openbin (path : string) (mode : string) (buffering : Z) (options : kwargs)
| Remove (path : string)
| Removedir (path : string)
| Getbytes (path : string)
| Gettext (path : string) (encoding errors newline : pyvalue)
| Getsize (path : string)
| Getsyspath (path : string)
| Gettype (path : string)
| Geturl (path : string)
| Hasurl (path : string)
| Isdir (path : string)
| Isfile (path : string)
| Scandir (path : string) (namespaces : pyvalue)
| Setinfo (path : string) (info : pyvalue)
| Validatepath (path : string)
| Open (path : string) (mode : string) (buffering : Z)
       (encoding errors newline : pyvalue) (options : kwargs)
| Setbytes (path : string) (contents : string)
| Settext (path : string) (contents : string) (encoding errors newline : pyvalue)
| Makedirs (path : string) (recreate : bool)
| Close.

(** The path argument of a call, when it has one. *)
Definition call_path (c : fs_call) : option string :=
  match c with
  | Getinfo p _ | Listdir p | Makedir p _ _ | Openbin p _ _ _ | Remove p
  | Removedir p | Getbytes p | Gettext p _ _ _ | Getsize p | Getsyspath p
  | Gettype p | Geturl p | Hasurl p | Isdir p | Isfile p | Scandir p _
  | Setinfo p _ | Validatepath p | Open p _ _ _ _ _ _ | Setbytes p _
  | Settext p _ _ _ _ | Makedirs p _ => Some p
  | Close => None
  end.

(** One entry of the trace: which object was called, and how. *)
Definition event : Type := fs_ref * fs_call.

(** Exceptions.  Those that [mountfs.py] and its helpers raise have a
    constructor each; whatever comes out of a delegate's method is
    [BackendError], tagged with the delegate, and propagates untouched. *)
Inductive exn : Type :=
| ValueError (msg : string)
| MountError (msg : string)
| FilesystemClosed
| RemoveRootError (path : string)
| IllegalBackReference (path : string)
| BackendError (fs : fs_ref) (what : string).

Inductive result (A : Type) : Type :=
| Ok (a : A)
| Raise (e : exn).
Arguments Ok {A} a.
Arguments Raise {A} e.

(** What a delegate answers to a call. *)
Inductive answer : Type :=
| Returns (v : pyvalue)
| Raises (what : string).

(** The behaviour of the delegates: the answer to a call may depend on
    every call made before it. *)
Definition oracle : Type := list event -> fs_ref -> fs_call -> answer.

(** ** The [MountFS] object *)

(** The attributes set by [__init__].  The flag [closed] is the one that
    [super().__init__()] creates, [super().close()] sets and [_check]
    reads; the base class [FS] of [fs/base.py] is not part of the source
    tree, see [_check] and [base_close] below. *)
Record MountFS : Type := mkMountFS {
  auto_close : bool;
  default_fs : fs_ref;
  mounts : list (string * fs_ref);
  closed : bool
}.

(** The object together with the calls made on delegates so far. *)

Record world : Type := mkWorld {
  self : MountFS;
  trace : list event
}.

(** [MountFS(auto_close)] *)
Definition __init__ (auto_close : bool) : world :=
  {| self := {| auto_close := auto_close; default_fs := DefaultFS;
                mounts := []; closed := false |};
     trace := [] |}.

(** ** Computations: state that survives exceptions *)

Definition M (A : Type) : Type := world -> result A * world.

Definition ret {A} (a : A) : M A := fun w => (Ok a, w).

Definition raise {A} (e : exn) : M A := fun w => (Raise e, w).

Definition bind {A B} (m : M A) (k : A -> M B) : M B :=
  fun w =>
    match m w with
    | (Ok a, w') => k a w'
    | (Raise e, w') => (Raise e, w')
    end.

Declare Scope py_scope.
Delimit Scope py_scope with py.
Notation "x <- m ;; k" := (bind m (fun x => k))
  (at level 61, m at next level, right associativity) : py_scope.
Notation "' pat <- m ;; k" := (bind m (fun x => match x with pat => k end))
  (at level 61, pat pattern, m at next level, right associativity) : py_scope.
Notation "m ;; k" := (bind m (fun _ => k))
  (at level 61, right associativity) : py_scope.
Local Open Scope py_scope.

Definition get_self : M MountFS := fun w => (Ok (self w), w).

Definition set_mounts (l : list (string * fs_ref)) : M unit :=
  fun w =>
    (Ok tt,
     {| self := {| auto_close := auto_close (self w);
                   default_fs := default_fs (self w);
                   mounts := l;
                   closed := closed (self w) |};
        trace := trace w |}).

Definition set_closed (b : bool) : M unit :=
  fun w =>
    (Ok tt,
     {| self := {| auto_close := auto_close (self w);
                   default_fs := default_fs (self w);
                   mounts := mounts (self w);
                   closed := b |};
        trace := trace w |}).

(** ** The methods of [MountFS] *)

Section Methods.

(** [fs.path.normpath]; [None] when it raises. *)
Variable normpath : string -> option string.
(** [fs.mode.validate_openbin_mode] and [validate_open_mode]: [false]
    when they raise [ValueError]. *)
Variable validate_openbin_mode : string -> bool.
Variable validate_open_mode : string -> bool.
(** The delegates. *)
Variable backend : oracle.

(** [fs.method(args)] on a delegate: the call is appended to the trace
    and its answer returned, or raised. *)
Definition call (fs : fs_ref) (c : fs_call) : M pyvalue :=
  fun w =>
    let w' := {| self := self w; trace := (trace w ++ [(fs, c)])%list |} in
    match backend (trace w) fs c with
    | Returns v => (Ok v, w')
    | Raises what => (Raise (BackendError fs what), w')
    end.

Definition try_normpath (path : string) : M string :=
  match normpath path with
  | Some n => ret n
  | None => raise (IllegalBackReference path)
  end.

Definition validate (ok : bool) (msg : string) : M unit :=
  if ok then ret tt else raise (ValueError msg).

(** Modelled from the spec: [FS._check] belongs to [fs/base.py], which
    is not part of the source tree.  "Fail with a closed-filesystem
    error if the Facade is closed." *)
Definition _check : M unit :=
  s <- get_self ;;
  if closed s then raise FilesystemClosed else ret tt.

(** Modelled from the spec: [FS.close] belongs to [fs/base.py], which is
    not part of the source tree.  "then mark the Facade closed". *)
Definition base_close : M unit := set_closed true.

(** The loop of [_delegate]. *)
Fixpoint find_mount (_path : string) (l : list (string * fs_ref))
  : option (fs_ref * string) :=
  match l with
  | [] => None
  | (mount_path, fs) :: l' =>
      if PyStr.startswith _path mount_path
      then Some (fs, PyStr.rstrip PyStr.sep
                       (PyStr.slice_from (String.length mount_path) _path))
      else find_mount _path l'
  end.

Definition _delegate (path : string) : M (fs_ref * string) :=
  n <- try_normpath path ;;
  let _path := Path.forcedir (Path.abspath n) in
  s <- get_self ;;
  match find_mount _path (mounts s) with
  | Some found => ret found
  | None => ret (default_fs s, path)
  end.

(** The conflict loop of [mount]. *)
Fixpoint check_overlap (_path : string) (l : list (string * fs_ref)) : M unit :=
  match l with
  | [] => ret tt
  | (mount_path, _) :: l' =>
      if PyStr.startswith _path mount_path
      then raise (MountError "mount point overlaps existing mount")
      else check_overlap _path l'
  end.

Definition mount (path : string) (fs : fs_ref) : M unit :=
  if fs_ref_eqb fs SelfFS then raise (ValueError "Unable to mount self")
  else
    n <- try_normpath path ;;
    let _path := Path.forcedir (Path.abspath n) in
    s <- get_self ;;
    check_overlap _path (mounts s) ;;
    set_mounts (mounts s ++ [(_path, fs)])%list ;;
    call (default_fs s) (Makedirs _path true) ;;
    ret tt.

(** The loop of [close]. *)
Fixpoint close_each (l : list (string * fs_ref)) : M unit :=
  match l with
  | [] => ret tt
  | (_, fs) :: l' => call fs Close ;; close_each l'
  end.

Definition close : M unit :=
  s <- get_self ;;
  (if auto_close s
   then close_each (mounts s) ;; set_mounts []
   else ret tt) ;;
  call (default_fs s) Close ;;
  base_close.

Definition getinfo (path : string) (namespaces : list string) : M pyvalue :=
  _check ;;
  '(fs, _path) <- _delegate path ;;
  call fs (Getinfo _path namespaces).

Definition listdir (path : string) : M pyvalue :=
  _check ;;
  '(fs, delegate_path) <- _delegate path ;;
  call fs (Listdir delegate_path).

Definition makedir (path : string) (permissions : pyvalue) (recreate : bool)
  : M pyvalue :=
  _check ;;
  '(fs, _path) <- _delegate path ;;
  call fs (Makedir _path permissions recreate).

Definition openbin (path mode : string) (buffering : Z) (options : kwargs)
  : M pyvalue :=
  validate (validate_openbin_mode mode) "invalid mode" ;;
  _check ;;
  '(fs, _path) <- _delegate path ;;
  call fs (Openbin _path mode (-1) options).

Definition remove (path : string) : M pyvalue :=
  _check ;;
  '(fs, _path) <- _delegate path ;;
  call fs (Remove _path).

Definition removedir (path : string) : M pyvalue :=
  _check ;;
  path <- try_normpath path ;;
  if String.eqb path "" || String.eqb path "/"
  then raise (RemoveRootError path)
  else
    '(fs, _path) <- _delegate path ;;
    call fs (Removedir _path).

Definition getbytes (path : string) : M pyvalue :=
  _check ;;
  '(fs, _path) <- _delegate path ;;
  call fs (Getbytes _path).

Definition gettext (path : string) (encoding errors newline : pyvalue)
  : M pyvalue :=
  _check ;;
  '(fs, _path) <- _delegate path ;;
  call fs (Gettext _path encoding errors newline).

Definition getsize (path : string) : M pyvalue :=
  _check ;;
  '(fs, _path) <- _delegate path ;;
  call fs (Getsize path).

Definition getsyspath (path : string) : M pyvalue :=
  _check ;;
  '(fs, _path) <- _delegate path ;;
  call fs (Getsyspath path).

Definition gettype (path : string) : M pyvalue :=
  _check ;;
  '(fs, _path) <- _delegate path ;;
  call fs (Gettype _path).

Definition geturl (path : string) : M pyvalue :=
  _check ;;
  '(fs, _path) <- _delegate path ;;
  call fs (Geturl path).

Definition hasurl (path : string) : M pyvalue :=
  _check ;;
  '(fs, _path) <- _delegate path ;;
  call fs (Hasurl _path).

Definition isdir (path : string) : M pyvalue :=
  _check ;;
  '(fs, _path) <- _delegate path ;;
  call fs (Isdir _path).

Definition isfile (path : string) : M pyvalue :=
  _check ;;
  '(fs, _path) <- _delegate path ;;
  call fs (Isfile _path).

Definition scandir (path : string) (namespaces : pyvalue) : M pyvalue :=
  _check ;;
  '(fs, _path) <- _delegate path ;;
  call fs (Scandir _path namespaces).

Definition setinfo (path : string) (info : pyvalue) : M pyvalue :=
  _check ;;
  '(fs, _path) <- _delegate path ;;
  call fs (Setinfo path info).

Definition validatepath (path : string) : M pyvalue :=
  _check ;;
  '(fs, _path) <- _delegate path ;;
  call fs (Validatepath _path).

Definition open (path mode : string) (buffering : Z)
           (encoding errors newline : pyvalue) (options : kwargs) : M pyvalue :=
  validate (validate_open_mode mode) "invalid mode" ;;
  _check ;;
  '(fs, _path) <- _delegate path ;;
  call fs (Open _path mode buffering encoding errors newline options).

Definition setbytes (path contents : string) : M pyvalue :=
  _check ;;
  '(fs, _path) <- _delegate path ;;
  call fs (Setbytes path contents).

Definition settext (path contents : string) (encoding errors newline : pyvalue)
  : M pyvalue :=
  '(fs, _path) <- _delegate path ;;
  call fs (Settext _path contents encoding errors newline).

(** The method of [MountFS] that has the name and the signature of a
    delegate call; [makedirs] and [close] are not proxied. *)
Definition perform (request : fs_call) : option (M pyvalue) :=
  match request with
  | Getinfo p ns => Some (getinfo p ns)
  | Listdir p => Some (listdir p)
  | Makedir p perm r => Some (makedir p perm r)
  | Openbin p m b o => Some (openbin p m b o)
  | Remove p => Some (remove p)
  | Removedir p => Some (removedir p)
  | Getbytes p => Some (getbytes p)
  | Gettext p e er nl => Some (gettext p e er nl)
  | Getsize p => Some (getsize p)
  | Getsyspath p => Some (getsyspath p)
  | Gettype p => Some (gettype p)
  | Geturl p => Some (geturl p)
  | Hasurl p => Some (hasurl p)
  | Isdir p => Some (isdir p)
  | Isfile p => Some (isfile p)
  | Scandir p ns => Some (scandir p ns)
  | Setinfo p i => Some (setinfo p i)
  | Validatepath p => Some (validatepath p)
  | Open p m b e er nl o => Some (open p m b e er nl o)
  | Setbytes p c => Some (setbytes p c)
  | Settext p c e er nl => Some (settext p c e er nl)
  | Makedirs _ _ => None
  | Close => None
  end.

End Methods.

(** Instances of the parameters for the concrete scenarios. *)
Module Scenario.

(** Delegates that answer [None] to every call. *)
Definition quiet : oracle := fun _ _ _ => Returns PyNone.

(** Delegates among which [bad] raises on [close()]. *)
Definition close_fails (bad : fs_ref) : oracle :=
  fun _ fs c =>
    match c with
    | Close => if fs_ref_eqb fs bad then Raises "close failed" else Returns PyNone
    | _ => Returns PyNone
    end.

(** A default filesystem whose [makedirs] raises. *)
Definition makedirs_fails : oracle :=
  fun _ fs c =>
    match c with
    | Makedirs _ _ => Raises "makedirs failed"
    | _ => Returns PyNone
    end.

(** Mode validation that accepts every mode string. *)
Definition any_mode : string -> bool := fun _ => true.

(** The world that a computation leaves. *)
Definition after {A : Type} (m : M A) (w : world) : world := snd (m w).

(** A new [MountFS] with one filesystem mounted at /data. *)
Definition data_mounted : world :=
  after (mount Path.normpath quiet "/data" (UserFS 1)) (__init__ true).

(** A new [MountFS] with filesystems mounted at /data/cache and then
    at /data. *)
Definition nested_mounted : world :=
  after (mount Path.normpath quiet "/data" (UserFS 2))
    (after (mount Path.normpath quiet "/data/cache" (UserFS 1)) (__init__ true)).

(** A new [MountFS] with filesystems mounted at /a and at /b. *)
Definition two_mounted : world :=
  after (mount Path.normpath quiet "/b" (UserFS 2))
    (after (mount Path.normpath quiet "/a" (UserFS 1)) (__init__ true)).

(** [data_mounted] after [close()]. *)
Definition data_closed : world := after (close quiet) data_mounted.

End Scenario.

(** ** Predicates on mount tables and worlds *)

(** Does [s] end with the character [c]?  (The structural form of
    [s.endswith(c)], see [PyStrFacts.endswith_char].) *)
Fixpoint last_is (c : ascii) (s : string) : bool :=
  match s with
  | EmptyString => false
  | String a s' =>
      match s' with
      | EmptyString => Ascii.eqb a c
      | String _ _ => last_is c s'
      end
  end.

(** Does the character [c] occur in [s]?  ([c in s]) *)
Fixpoint mentions (c : ascii) (s : string) : bool :=
  match s with
  | EmptyString => false
  | String a s' => Ascii.eqb a c || mentions c s'
  end.

(** A component of a canonical path: not empty, no separator inside. *)
Definition plain_component (component : string) : bool :=
  negb (String.eqb component "") && negb (mentions PyStr.sep component).

(** A stored mount path is absolute and separator-terminated. *)
Definition mount_path_wf (m : string) : bool :=
  PyStr.startswith m "/" && PyStr.endswith m "/".

Definition wf_mounts (l : list (string * fs_ref)) : bool :=
  forallb (fun e => mount_path_wf (fst e)) l.

(** No entry's mount path is a prefix of another entry's mount path. *)
Definition prefix_free (l : list (string * fs_ref)) : Prop :=
  forall i j a b,
    i <> j -> nth_error l i = Some a -> nth_error l j = Some b ->
    PyStr.startswith (fst b) (fst a) = false.

(** No entry's mount path is a prefix of the mount path of an entry
    registered after it. *)
Definition earlier_not_prefix (l : list (string * fs_ref)) : Prop :=
  forall i j a b,
    i < j -> nth_error l i = Some a -> nth_error l j = Some b ->
    PyStr.startswith (fst b) (fst a) = false.

(** The worlds that a sequence of successful [mount] calls leads to from
    a new [MountFS]. *)
Inductive mounted_worlds (normpath : string -> option string) (backend : oracle)
  : world -> Prop :=
| mounted_new : forall ac, mounted_worlds normpath backend (__init__ ac)
| mounted_more : forall w path fs w',
    mounted_worlds normpath backend w ->
    mount normpath backend path fs w = (Ok tt, w') ->
    mounted_worlds normpath backend w'.

(** The world with another mount table, and the world with more calls
    in its trace. *)
Definition with_mounts (l : list (string * fs_ref)) (w : world) : world :=
  snd (set_mounts l w).

Definition logged (evs : list event) (w : world) : world :=
  {| self := self w; trace := (trace w ++ evs)%list |}.

(** What a call on a delegate gives back to the caller. *)
Definition outcome (a : answer) (fs : fs_ref) : result pyvalue :=
  match a with
  | Returns v => Ok v
  | Raises what => Raise (BackendError fs what)
  end.

Definition overlap_message : string := "mount point overlaps existing mount".

(** The events of closing the filesystems of a list of entries, in order. *)
Definition close_events (l : list (string * fs_ref)) : list event :=
  map (fun e => (snd e, Close)) l.

(** Does the method behind a request hand the resolved path to the
    delegate?  These are the methods whose body passes [_path]. *)
Definition passes_resolved_path (request : fs_call) : bool :=
  match request with
  | Getsize _ | Getsyspath _ | Geturl _ | Setinfo _ _ | Setbytes _ _ => false
  | Makedirs _ _ | Close => false
  | _ => true
  end.

(** The same request with another path. *)
Definition with_path (p : string) (request : fs_call) : fs_call :=
  match request with
  | Getinfo _ ns => Getinfo p ns
  | Listdir _ => Listdir p
  | Makedir _ perm r => Makedir p perm r
  | Openbin _ m b o => Openbin p m b o
  | Remove _ => Remove p
  | Removedir _ => Removedir p
  | Getbytes _ => Getbytes p
  | Gettext _ e er nl => Gettext p e er nl
  | Getsize _ => Getsize p
  | Getsyspath _ => Getsyspath p
  | Gettype _ => Gettype p
  | Geturl _ => Geturl p
  | Hasurl _ => Hasurl p
  | Isdir _ => Isdir p
  | Isfile _ => Isfile p
  | Scandir _ ns => Scandir p ns
  | Setinfo _ i => Setinfo p i
  | Validatepath _ => Validatepath p
  | Open _ m b e er nl o => Open p m b e er nl o
  | Setbytes _ c => Setbytes p c
  | Settext _ c e er nl => Settext p c e er nl
  | Makedirs _ r => Makedirs p r
  | Close => Close
  end.

(** Is the mode of an opening request accepted by the validators? *)
Definition mode_accepted (validate_openbin_mode validate_open_mode : string -> bool)
    (request : fs_call) : bool :=
  match request with
  | Openbin _ mode _ _ => validate_openbin_mode mode
  | Open _ mode _ _ _ _ _ => validate_open_mode mode
  | _ => true
  end.

(** The request as [MountFS] hands it on, the path apart: [openbin]
    replaces the caller's buffering by [-1]. *)
Definition handed_on (request : fs_call) : fs_call :=
  match request with
  | Openbin p mode _ options => Openbin p mode (-1) options
  | _ => request
  end.

(** ** The public interface as a whole *)

(** One call on the public interface of [MountFS]. *)
Inductive api_call : Type :=
| ApiMount (path : string) (fs : fs_ref)
| ApiClose
| ApiOperation (request : fs_call).

(** The world that a call leaves, whether it returned or raised. *)
Definition after_call (normpath : string -> option string)
    (validate_openbin_mode validate_open_mode : string -> bool)
    (backend : oracle) (a : api_call) (w : world) : world :=
  match a with
  | ApiMount path fs => snd (mount normpath backend path fs w)
  | ApiClose => snd (close backend w)
  | ApiOperation request =>
      match perform normpath validate_openbin_mode validate_open_mode backend request with
      | Some m => snd (m w)
      | None => w
      end
  end.

(** The worlds that any sequence of calls leads to from a new [MountFS]. *)
Inductive reachable (normpath : string -> option string)
    (validate_openbin_mode validate_open_mode : string -> bool)
    (backend : oracle) : world -> Prop :=
| reachable_new : forall ac,
    reachable normpath validate_openbin_mode validate_open_mode backend (__init__ ac)
| reachable_call : forall a w,
    reachable normpath validate_openbin_mode validate_open_mode backend w ->
    reachable normpath validate_openbin_mode validate_open_mode backend
      (after_call normpath validate_openbin_mode validate_open_mode backend a w).

(** The table never holds the [MountFS] itself. *)
Definition no_self_mount (l : list (string * fs_ref)) : bool :=
  forallb (fun e => negb (fs_ref_eqb (snd e) SelfFS)) l.

(** Worlds for the scenarios of the interface as a whole. *)
Module Journey.

(** A [MountFS] built with [auto_close=False], with a filesystem at /data. *)
Definition kept_open_mounts : world :=
  Scenario.after (mount Path.normpath Scenario.quiet "/data" (UserFS 1)) (__init__ false).

(** Mount, use, close, and use again. *)
Definition session : list api_call :=
  [ApiMount "/data/cache" (UserFS 1);
   ApiMount "/data" (UserFS 2);
   ApiMount "/data/cache/x" (UserFS 3);
   ApiOperation (Listdir "/data/x");
   ApiClose;
   ApiOperation (Settext "/a" "x" PyNone PyNone PyNone)].

Definition run_session (calls : list api_call) (w : world) : world :=
  fold_left
    (fun w a => after_call Path.normpath Scenario.any_mode Scenario.any_mode
                  Scenario.quiet a w)
    calls w.

End Journey.

(** Is the exception one that [MountFS] or its helpers raise, as
    opposed to one that came out of a delegate? *)
Definition raised_by_mountfs (e : exn) : bool :=
  match e with
  | BackendError _ _ => false
  | _ => true
  end.

(** Does every [close()] of the loop of [close] return, each asked at
    the history at which the loop makes it: the calls made so far,
    followed by the closes of the entries before it? *)
Fixpoint closes_return (backend : oracle) (h : list event)
    (l : list (string * fs_ref)) : bool :=
  match l with
  | [] => true
  | (_, fs) :: l' =>
      match backend h fs Close with
      | Returns _ => closes_return backend (h ++ [(fs, Close)])%list l'
      | Raises _ => false
      end
  end.

(** Worlds in which a filesystem is closed more than once. *)
Module Reclose.

(** Has [close()] been called on [fs] before? *)
Definition closed_before (h : list event) (fs : fs_ref) : bool :=
  existsb
    (fun e => fs_ref_eqb (fst e) fs
              && match snd e with Close => true | _ => false end) h.

(** Delegates that raise when they are closed a second time. *)
Definition second_close_fails : oracle :=
  fun h fs c =>
    match c with
    | Close => if closed_before h fs then Raises "already closed" else Returns PyNone
    | _ => Returns PyNone
    end.

(** One filesystem mounted at /a and at /b, another at /c. *)
Definition mounted_twice : world :=
  Scenario.after (mount Path.normpath second_close_fails "/c" (UserFS 2))
    (Scenario.after (mount Path.normpath second_close_fails "/b" (UserFS 1))
       (Scenario.after (mount Path.normpath second_close_fails "/a" (UserFS 1))
          (__init__ true))).

(** The default filesystem mounted at /d, beside another at /a. *)
Definition default_mounted : world :=
  Scenario.after (mount Path.normpath second_close_fails "/d" DefaultFS)
    (Scenario.after (mount Path.normpath second_close_fails "/a" (UserFS 1))
       (__init__ true)).

End Reclose.

(** * Properties *)

(** ** Facts about the string primitives *)

Module PyStrFacts.
Import PyStr.




Lemma endswith_char (c : ascii) (s : string) :
  endswith s (String c "") = last_is c s.
Proof.
  unfold endswith.
  induction s as [|a s IH]; [reflexivity|].
  destruct s as [|b s].
  - simpl. now destruct (Ascii.eqb a c).
  - change (last_is c (String a (String b s))) with (last_is c (String b s)).
    rewrite <- IH. simpl. rewrite Nat.sub_0_r. reflexivity.
Qed.

Lemma last_is_app (c : ascii) (s t : string) :
  t <> "" -> last_is c (s ++ t) = last_is c t.
Proof.
  intros Ht. induction s as [|a s IH]; [reflexivity|].
  simpl. destruct (s ++ t) eqn:E.
  - destruct s; simpl in E; [contradiction | discriminate].
  - exact IH.
Qed.


Lemma app_assoc (a b c : string) : (a ++ b) ++ c = a ++ b ++ c.
Proof. induction a; simpl; congruence. Qed.


Lemma has_double_sep_cons (a b : ascii) (s : string) :
  has_double_sep (String a (String b s))
  = (Ascii.eqb a sep && Ascii.eqb b sep) || has_double_sep (String b s).
Proof. reflexivity. Qed.


Lemma has_double_sep_app_l (s t : string) :
  has_double_sep (s ++ t) = false -> has_double_sep s = false.
Proof.
  induction s as [|a s IH]; [reflexivity|].
  destruct s as [|b s]; [reflexivity|].
  change (has_double_sep (String a (String b (s ++ t))) = false ->
          has_double_sep (String a (String b s)) = false).
  cbn [has_double_sep]. intros H. apply orb_false_iff in H as [-> H].
  exact (IH H).
Qed.



Lemma rstrip_last (c : ascii) (s : string) : last_is c (rstrip c s) = false.
Proof.
  induction s as [|a s IH]; [reflexivity|].
  simpl. destruct (rstrip c s) as [|b r] eqn:E.
  - destruct (Ascii.eqb a c) eqn:Ea; simpl; auto.
  - exact IH.
Qed.

End PyStrFacts.

(** ** Facts about the path helpers *)

Module PathFacts.
Import PyStr PyStrFacts Path.

Lemma forcedir_last (s : string) : last_is sep (forcedir s) = true.
Proof.
  unfold forcedir. rewrite endswith_char. fold sep.
  destruct (last_is sep s) eqn:E; [exact E|].
  now rewrite last_is_app.
Qed.


Lemma forcedir_append (s : string) :
  last_is sep s = false -> forcedir s = s ++ "/".
Proof. intros H. unfold forcedir. rewrite endswith_char. fold sep. now rewrite H. Qed.

Lemma abspath_absolute (s : string) : startswith (abspath s) "/" = true.
Proof.
  unfold abspath. destruct (startswith s "/") eqn:E; [exact E | reflexivity].
Qed.

Lemma forcedir_absolute (s : string) :
  startswith s "/" = true -> startswith (forcedir s) "/" = true.
Proof.
  intros H. unfold forcedir. destruct (endswith s "/"); [exact H|].
  destruct s as [|a s]; [discriminate|]. exact H.
Qed.

(** What [mount] stores is always a well-formed mount path. *)
Lemma stored_path_wf (n : string) : mount_path_wf (forcedir (abspath n)) = true.
Proof.
  unfold mount_path_wf.
  rewrite forcedir_absolute by apply abspath_absolute.
  rewrite endswith_char. fold sep. apply forcedir_last.
Qed.



(** *** The modelled [normpath] yields canonical paths *)

Lemma split_no_sep (c : ascii) (s : string) :
  Forall (fun w => mentions c w = false) (split c s).
Proof.
  induction s as [|a s IH]; simpl.
  - constructor; [reflexivity | constructor].
  - destruct (Ascii.eqb a c) eqn:Ea.
    + constructor; [reflexivity | exact IH].
    + destruct (split c s) as [|w ws].
      * constructor; [|constructor]. simpl. now rewrite Ea.
      * inversion IH as [|? ? Hw Hws]; subst.
        constructor; [|exact Hws]. simpl. now rewrite Ea, Hw.
Qed.

Lemma push_component_plain (cs cs' : list string) (component : string) :
  Forall (fun w => plain_component w = true) cs ->
  mentions sep component = false ->
  push_component (Some cs) component = Some cs' ->
  Forall (fun w => plain_component w = true) cs'.
Proof.
  intros Hcs Hc. unfold push_component.
  destruct (String.eqb component "" || String.eqb component ".") eqn:Eskip.
  - now intros [= <-].
  - destruct (String.eqb component "..").
    + destruct (rev cs) as [|x r] eqn:Er; [discriminate|].
      intros [= <-]. apply Forall_rev.
      apply Forall_rev in Hcs. rewrite Er in Hcs. now inversion Hcs.
    + intros [= <-]. apply Forall_app. split; [exact Hcs|].
      constructor; [|constructor]. unfold plain_component.
      apply orb_false_iff in Eskip as [-> _]. now rewrite Hc.
Qed.

Lemma fold_push_none (l : list string) : fold_left push_component l None = None.
Proof. induction l; simpl; auto. Qed.

Lemma fold_push_plain (l : list string) :
  Forall (fun w => mentions sep w = false) l ->
  forall cs cs',
    Forall (fun w => plain_component w = true) cs ->
    fold_left push_component l (Some cs) = Some cs' ->
    Forall (fun w => plain_component w = true) cs'.
Proof.
  induction 1 as [|c l Hc Hl IH]; intros cs cs' Hcs; cbn [fold_left].
  - now intros [= <-].
  - destruct (push_component (Some cs) c) as [cs1|] eqn:E.
    + apply IH. eapply push_component_plain; eauto.
    + now rewrite fold_push_none.
Qed.

Lemma plain_cons (w : string) :
  plain_component w = true ->
  exists a w', w = String a w' /\ Ascii.eqb a sep = false /\ mentions sep w' = false.
Proof.
  unfold plain_component. destruct w as [|a w']; [discriminate|].
  simpl. intros H.
  apply negb_true_iff, orb_false_iff in H as [Ha Hw]. eauto.
Qed.

Lemma no_sep_no_double (w rest : string) :
  mentions sep w = false ->
  has_double_sep (w ++ String sep rest) = has_double_sep (String sep rest).
Proof.
  induction w as [|a w IH]; [reflexivity|].
  intros H. simpl in H. apply orb_false_iff in H as [Ha Hw].
  rewrite <- (IH Hw). simpl (String a w ++ _).
  cbn [has_double_sep]. destruct (w ++ String sep rest) eqn:E.
  - destruct w; discriminate.
  - now rewrite Ha.
Qed.

Lemma no_sep_last (w : string) : mentions sep w = false -> last_is sep w = false.
Proof.
  induction w as [|a w IH]; [reflexivity|].
  simpl. intros H. apply orb_false_iff in H as [Ha Hw].
  destruct w; [exact Ha | now apply IH].
Qed.

(** A joined list of plain components is not empty, has no doubled
    separator and neither begins nor ends with the separator. *)
Lemma join_plain (c : string) (cs : list string) :
  Forall (fun w => plain_component w = true) (c :: cs) ->
  exists a j,
    join "/" (c :: cs) = String a j
    /\ Ascii.eqb a sep = false
    /\ has_double_sep (String a j) = false
    /\ last_is sep (String a j) = false.
Proof.
  revert c. induction cs as [|d cs IH]; intros c Hall.
  - inversion Hall as [|? ? Hc _]; subst.
    destruct (plain_cons _ Hc) as (a & w & -> & Ha & Hw).
    exists a, w. split; [reflexivity|]. split; [exact Ha|]. split.
    + pose proof (no_sep_no_double (String a w) "") as H.
      assert (Hm : mentions sep (String a w) = false) by (simpl; now rewrite Ha, Hw).
      specialize (H Hm). change (has_double_sep (String sep "")) with false in H.
      apply has_double_sep_app_l with (t := String sep ""). exact H.
    + apply no_sep_last. simpl. now rewrite Ha, Hw.
  - inversion Hall as [|? ? Hc Hrest]; subst.
    destruct (IH d Hrest) as (b & j & Hj & Hb & Hdbl & Hlast).
    destruct (plain_cons _ Hc) as (a & w & -> & Ha & Hw).
    change (join "/" (String a w :: d :: cs))
      with (String a w ++ "/" ++ join "/" (d :: cs)).
    rewrite Hj. exists a, (w ++ String sep (String b j)).
    split; [reflexivity|]. split; [exact Ha|].
    assert (Hm : mentions sep (String a w) = false) by (simpl; now rewrite Ha, Hw).
    split.
    + change (String a (w ++ String sep (String b j)))
        with (String a w ++ String sep (String b j)).
      rewrite (no_sep_no_double _ _ Hm), has_double_sep_cons.
      rewrite Hb, andb_false_r. exact Hdbl.
    + change (String a (w ++ String sep (String b j)))
        with (String a w ++ String sep (String b j)).
      rewrite last_is_app by discriminate. exact Hlast.
Qed.

Lemma has_double_sep_snoc (s : string) :
  has_double_sep s = false -> last_is sep s = false ->
  has_double_sep (s ++ "/") = false.
Proof.
  induction s as [|a s IH]; [reflexivity|].
  destruct s as [|b s].
  - simpl. intros _ ->. reflexivity.
  - intros Hd Hl. change (last_is sep (String b s) = false) in Hl.
    cbn [has_double_sep] in Hd. apply orb_false_iff in Hd as [Hab Hd].
    change (has_double_sep (String a (String b (s ++ "/"))) = false).
    cbn [has_double_sep]. rewrite Hab.
    exact (IH Hd Hl).
Qed.

(** Whatever the path, the normalised, separator-terminated form that
    the modelled [normpath] leads to has no doubled separator. *)
Lemma normpath_canonical (path n : string) :
  normpath path = Some n -> has_double_sep (forcedir (abspath n)) = false.
Proof.
  unfold normpath. generalize (startswith path "/"). intros slash.
  destruct (fold_left push_component (split sep path) (Some [])) as [cs|] eqn:E;
    [|discriminate].
  intros [= <-].
  assert (Hcs : Forall (fun w => plain_component w = true) cs).
  { eapply fold_push_plain; [apply split_no_sep | constructor | exact E]. }
  destruct cs as [|c cs].
  - destruct slash; reflexivity.
  - destruct (join_plain _ _ Hcs) as (a & j & -> & Ha & Hdbl & Hlast).
    assert (Habs : abspath ((if slash then "/" else "") ++ String a j)
                   = String sep (String a j)).
    { destruct slash; [reflexivity|].
      unfold abspath. cbn [append startswith].
      fold sep. rewrite Ascii.eqb_sym, Ha. reflexivity. }
    rewrite Habs, forcedir_append by exact Hlast.
    change (String sep (String a j) ++ "/") with (String sep (String a (j ++ "/"))).
    rewrite has_double_sep_cons, Ha, andb_false_r, orb_false_l.
    change (String a (j ++ "/")) with (String a j ++ "/").
    now apply has_double_sep_snoc.
Qed.

End PathFacts.

(** ** Resolution: [_delegate] *)

Section Resolution.
Import PyStr PyStrFacts Path PathFacts.

Variable normpath : string -> option string.

Lemma find_mount_none (_path : string) (l : list (string * fs_ref)) :
  find_mount _path l = None <->
  (forall e, In e l -> startswith _path (fst e) = false).
Proof.
  induction l as [|[m b] l IH]; simpl.
  - split; [intros _ e [] | reflexivity].
  - destruct (startswith _path m) eqn:E.
    + split; [discriminate|]. intros H. specialize (H (m, b) (or_introl eq_refl)).
      simpl in H. congruence.
    + rewrite IH. split.
      * intros H e [<- | He]; [exact E | now apply H].
      * intros H e He. apply H. now right.
Qed.

(** The loop returns the first matching entry of the table. *)
Lemma find_mount_first (_path : string) (l : list (string * fs_ref)) found :
  find_mount _path l = Some found ->
  exists before m after,
    l = (before ++ (m, fst found) :: after)%list
    /\ (forall e, In e before -> startswith _path (fst e) = false)
    /\ startswith _path m = true
    /\ snd found = rstrip sep (slice_from (String.length m) _path).
Proof.
  induction l as [|[m b] l IH]; simpl; [discriminate|].
  destruct (startswith _path m) eqn:E.
  - intros [= <-]. exists [], m, l. simpl. repeat split; auto.
    intros e [].
  - intros H. destruct (IH H) as (before & m' & after & -> & Hb & Hm & Hs).
    exists ((m, b) :: before), m', after. repeat split; auto.
    intros e [<- | He]; [exact E | now apply Hb].
Qed.

Lemma find_mount_some (_path : string) (l : list (string * fs_ref)) m b :
  In (m, b) l -> startswith _path m = true ->
  exists found, find_mount _path l = Some found.
Proof.
  intros Hin Hm. destruct (find_mount _path l) eqn:E; [eauto|].
  rewrite find_mount_none in E. specialize (E _ Hin). simpl in E. congruence.
Qed.

Lemma delegate_run (w : world) (path n : string) :
  normpath path = Some n ->
  _delegate normpath path w =
    (Ok match find_mount (forcedir (abspath n)) (mounts (self w)) with
        | Some found => found
        | None => (default_fs (self w), path)
        end, w).
Proof.
  intros Hn. unfold _delegate, try_normpath, bind, get_self, ret.
  rewrite Hn. simpl.
  now destruct (find_mount (forcedir (abspath n)) (mounts (self w))).
Qed.

Lemma delegate_fails (w : world) (path : string) :
  normpath path = None ->
  _delegate normpath path w = (Raise (IllegalBackReference path), w).
Proof.
  intros Hn. unfold _delegate, try_normpath, bind, raise. now rewrite Hn.
Qed.



(** C5.  When the normalised, separator-terminated form of a path
    starts with no mount path of the table, [_delegate] returns the
    default filesystem and the path exactly as the caller gave it. *)
Theorem delegate_default_unchanged (w : world) (path n : string) :
  normpath path = Some n ->
  (forall e, In e (mounts (self w)) ->
             startswith (forcedir (abspath n)) (fst e) = false) ->
  _delegate normpath path w = (Ok (default_fs (self w), path), w).
Proof.
  intros Hn Hnone. rewrite (delegate_run _ _ _ Hn).
  apply find_mount_none in Hnone. now rewrite Hnone.
Qed.

End Resolution.

(** ** Running computations *)

Ltac run :=
  unfold bind, ret, raise, get_self, set_mounts, set_closed, validate,
    try_normpath, _check, base_close, with_mounts, logged; simpl.

Lemma fs_ref_eqb_eq (a b : fs_ref) : fs_ref_eqb a b = true <-> a = b.
Proof.
  destruct a, b; simpl; split; try congruence; try discriminate.
  - intros H. apply Nat.eqb_eq in H. now subst.
  - intros [= ->]. apply Nat.eqb_refl.
Qed.

Lemma fs_ref_eqb_neq (a b : fs_ref) : a <> b -> fs_ref_eqb a b = false.
Proof.
  intros H. destruct (fs_ref_eqb a b) eqn:E; [|reflexivity].
  apply fs_ref_eqb_eq in E. contradiction.
Qed.

Lemma call_run (backend : oracle) (fs : fs_ref) (c : fs_call) (w : world) :
  call backend fs c w = (outcome (backend (trace w) fs c) fs, logged [(fs, c)] w).
Proof.
  unfold call, outcome, logged. now destruct (backend (trace w) fs c).
Qed.

(** ** Registration: [mount] *)

Section Registration.
Import PyStr PyStrFacts Path PathFacts.

Variable normpath : string -> option string.
Variable backend : oracle.

Lemma check_overlap_run (_path : string) (l : list (string * fs_ref)) (w : world) :
  check_overlap _path l w =
    (if existsb (fun e => startswith _path (fst e)) l
     then Raise (MountError overlap_message) else Ok tt, w).
Proof.
  induction l as [|[m b] l IH]; simpl; [reflexivity|].
  destruct (startswith _path m); [reflexivity | exact IH].
Qed.

Lemma mount_self (w : world) (path : string) :
  mount normpath backend path SelfFS w = (Raise (ValueError "Unable to mount self"), w).
Proof. reflexivity. Qed.

Lemma mount_bad_path (w : world) (path : string) (fs : fs_ref) :
  fs <> SelfFS -> normpath path = None ->
  mount normpath backend path fs w = (Raise (IllegalBackReference path), w).
Proof.
  intros Hfs Hn. unfold mount. rewrite (fs_ref_eqb_neq _ _ Hfs).
  run. now rewrite Hn.
Qed.

(** The whole of [mount] once the argument checks are passed. *)
Lemma mount_run (w : world) (path n : string) (fs : fs_ref) :
  fs <> SelfFS -> normpath path = Some n ->
  mount normpath backend path fs w =
    if existsb (fun e => startswith (forcedir (abspath n)) (fst e)) (mounts (self w))
    then (Raise (MountError overlap_message), w)
    else
      (match backend (trace w) (default_fs (self w))
                     (Makedirs (forcedir (abspath n)) true) with
       | Returns _ => Ok tt
       | Raises what => Raise (BackendError (default_fs (self w)) what)
       end,
       logged [(default_fs (self w), Makedirs (forcedir (abspath n)) true)]
         (with_mounts (mounts (self w) ++ [(forcedir (abspath n), fs)])%list w)).
Proof.
  intros Hfs Hn. unfold mount. rewrite (fs_ref_eqb_neq _ _ Hfs).
  unfold bind at 1. unfold try_normpath. rewrite Hn. unfold ret at 1.
  unfold bind at 1. unfold get_self at 1.
  unfold bind at 1. rewrite check_overlap_run.
  destruct (existsb _ (mounts (self w))); [reflexivity|].
  unfold bind at 1. unfold set_mounts at 1.
  unfold bind at 1. rewrite call_run. simpl.
  unfold logged, with_mounts, set_mounts; simpl.
  now destruct (backend (trace w) (default_fs (self w)) _).
Qed.

(** What a call of [mount], whatever its outcome, does to the table. *)
Lemma mount_table_step (w w' : world) (path : string) (fs : fs_ref) r :
  mount normpath backend path fs w = (r, w') ->
  mounts (self w') = mounts (self w)
  \/ exists _path,
       mounts (self w') = (mounts (self w) ++ [(_path, fs)])%list
       /\ mount_path_wf _path = true
       /\ forall e, In e (mounts (self w)) -> startswith _path (fst e) = false.
Proof.
  destruct (fs_ref_eqb fs SelfFS) eqn:Hself.
  { apply fs_ref_eqb_eq in Hself. subst fs. rewrite mount_self.
    intros [= _ <-]. now left. }
  assert (Hfs : fs <> SelfFS).
  { intros ->. discriminate. }
  destruct (normpath path) as [n|] eqn:Hn.
  - rewrite (mount_run _ _ _ _ Hfs Hn).
    destruct (existsb _ _) eqn:Ex.
    + intros [= _ <-]. now left.
    + intros [= _ <-]. right. exists (forcedir (abspath n)).
      split; [reflexivity|]. split; [apply stored_path_wf|].
      intros e He. destruct (startswith _ (fst e)) eqn:E; [|reflexivity].
      assert (existsb (fun e => startswith (forcedir (abspath n)) (fst e))
                (mounts (self w)) = true) by (apply existsb_exists; eauto).
      congruence.
  - rewrite (mount_bad_path _ _ _ Hfs Hn).
    intros [= _ <-]. now left.
Qed.

(** C3.  For a filesystem other than the [MountFS] itself, [mount]
    raises the mount-conflict error exactly when the normalised,
    separator-terminated form of the path starts with the mount path
    of an existing entry (an equal path included).  The check goes one
    way only: on a new [MountFS] whose default filesystem accepts
    [makedirs], mounting at /data after /data/cache succeeds, and
    mounting at /data/cache after /data raises the conflict error. *)
Theorem mount_conflict_rule :
  (forall (w : world) (path : string) (fs : fs_ref),
      fs <> SelfFS ->
      (exists msg w',
          mount normpath backend path fs w = (Raise (MountError msg), w'))
      <->
      (exists n e,
          normpath path = Some n
          /\ In e (mounts (self w))
          /\ startswith (forcedir (abspath n)) (fst e) = true))
  /\
  (normpath "/data" = Some "/data" ->
   normpath "/data/cache" = Some "/data/cache" ->
   (forall h fs p, exists v, backend h fs (Makedirs p true) = Returns v) ->
   forall (ac : bool) (a b : fs_ref),
     a <> SelfFS -> b <> SelfFS ->
     (exists w',
         (mount normpath backend "/data/cache" a ;;
          mount normpath backend "/data" b) (__init__ ac) = (Ok tt, w')
         /\ mounts (self w') = [("/data/cache/", a); ("/data/", b)])
     /\
     (exists w',
         (mount normpath backend "/data" a ;;
          mount normpath backend "/data/cache" b) (__init__ ac)
         = (Raise (MountError overlap_message), w')
         /\ mounts (self w') = [("/data/", a)])).
Proof.
  split.
  - intros w path fs Hfs. split.
    + intros (msg & w' & H).
      destruct (normpath path) as [n|] eqn:Hn.
      * rewrite (mount_run _ _ _ _ Hfs Hn) in H.
        destruct (existsb _ _) eqn:Ex.
        -- apply existsb_exists in Ex as (e & He & Hm). eauto.
        -- destruct (backend _ _ _); discriminate.
      * rewrite (mount_bad_path _ _ _ Hfs Hn) in H. discriminate.
    + intros (n & e & Hn & He & Hm).
      exists overlap_message, w. rewrite (mount_run _ _ _ _ Hfs Hn).
      replace (existsb _ _) with true; [reflexivity|].
      symmetry. apply existsb_exists. eauto.
  - intros Hdata Hcache Hmk ac a b Ha Hb.
    assert (Ecache : forcedir (abspath "/data/cache") = "/data/cache/") by reflexivity.
    assert (Edata : forcedir (abspath "/data") = "/data/") by reflexivity.
    split.
    + unfold bind. rewrite (mount_run _ _ _ _ Ha Hcache), Ecache. simpl.
      destruct (Hmk [] DefaultFS "/data/cache/") as [v ->].
      rewrite (mount_run _ _ _ _ Hb Hdata), Edata. simpl.
      destruct (Hmk [(DefaultFS, Makedirs "/data/cache/" true)] DefaultFS "/data/")
        as [v' ->].
      eexists. split; reflexivity.
    + unfold bind. rewrite (mount_run _ _ _ _ Ha Hdata), Edata. simpl.
      destruct (Hmk [] DefaultFS "/data/") as [v ->].
      rewrite (mount_run _ _ _ _ Hb Hcache), Ecache. simpl.
      eexists. split; reflexivity.
Qed.

(** C10.  [mount] registers the entry before it asks the default
    filesystem for the directory: when the checks pass and [makedirs]
    raises, the error propagates and the new entry is in the table. *)
Theorem mount_entry_survives_makedirs_error
    (w : world) (path n what : string) (fs : fs_ref) :
  fs <> SelfFS ->
  normpath path = Some n ->
  (forall e, In e (mounts (self w)) ->
             startswith (forcedir (abspath n)) (fst e) = false) ->
  backend (trace w) (default_fs (self w)) (Makedirs (forcedir (abspath n)) true)
    = Raises what ->
  exists w',
    mount normpath backend path fs w
      = (Raise (BackendError (default_fs (self w)) what), w')
    /\ mounts (self w') = (mounts (self w) ++ [(forcedir (abspath n), fs)])%list
    /\ trace w' = (trace w ++ [(default_fs (self w),
                                 Makedirs (forcedir (abspath n)) true)])%list
    /\ closed (self w') = closed (self w).
Proof.
  intros Hfs Hn Hfree Hmk.
  rewrite (mount_run _ _ _ _ Hfs Hn).
  replace (existsb _ _) with false.
  - rewrite Hmk. eexists. split; [reflexivity|]. simpl. auto.
  - symmetry. destruct (existsb _ _) eqn:Ex; [|reflexivity].
    apply existsb_exists in Ex as (e & He & Hm).
    rewrite (Hfree e He) in Hm. discriminate.
Qed.

Lemma earlier_not_prefix_nil : earlier_not_prefix [].
Proof. intros i j a b _ Hi. destruct i; discriminate. Qed.

Lemma earlier_not_prefix_snoc (l : list (string * fs_ref)) (x : string * fs_ref) :
  earlier_not_prefix l ->
  (forall e, In e l -> startswith (fst x) (fst e) = false) ->
  earlier_not_prefix (l ++ [x]).
Proof.
  intros Hl Hx i j a b Hij Hi Hj.
  assert (Hjlen : j < List.length (l ++ [x])) by (apply nth_error_Some; congruence).
  rewrite length_app in Hjlen. simpl in Hjlen.
  rewrite nth_error_app1 in Hi by lia.
  destruct (Nat.eq_dec j (List.length l)) as [-> | Hne].
  - rewrite nth_error_app2, Nat.sub_diag in Hj by lia. simpl in Hj.
    injection Hj as <-. apply Hx. eapply nth_error_In; eauto.
  - rewrite nth_error_app1 in Hj by lia. exact (Hl i j a b Hij Hi Hj).
Qed.

(** Every table built by [mount] holds well-formed mount paths. *)
Lemma mounted_worlds_wf (w : world) :
  mounted_worlds normpath backend w -> wf_mounts (mounts (self w)) = true.
Proof.
  induction 1 as [ac | w path fs w' _ IH Hstep]; [reflexivity|].
  destruct (mount_table_step _ _ _ _ _ Hstep) as [-> | (p & -> & Hp & _)]; [exact IH|].
  unfold wf_mounts in *. rewrite forallb_app, IH. simpl. now rewrite Hp.
Qed.

(** C6, as amended.  In every table reached by successful [mount]
    calls, no entry's mount path is a prefix of the mount path of an
    entry registered after it. *)
Theorem mounted_earlier_not_prefix (w : world) :
  mounted_worlds normpath backend w -> earlier_not_prefix (mounts (self w)).
Proof.
  induction 1 as [ac | w path fs w' _ IH Hstep].
  - apply earlier_not_prefix_nil.
  - destruct (mount_table_step _ _ _ _ _ Hstep) as [-> | (p & -> & _ & Hp)]; [exact IH|].
    now apply earlier_not_prefix_snoc.
Qed.

End Registration.

(** ** Shutdown: [close] *)

Section Shutdown.

Variable backend : oracle.

Lemma logged_logged (evs evs' : list event) (w : world) :
  logged evs' (logged evs w) = logged (evs ++ evs')%list w.
Proof. unfold logged. simpl. now rewrite <- List.app_assoc. Qed.

Lemma logged_nil (w : world) : logged [] w = w.
Proof. destruct w. unfold logged. simpl. now rewrite List.app_nil_r. Qed.

(** A loop whose closes all return, whatever the history, is one whose
    closes return at the histories at which they are made. *)
Lemma all_return_closes_return (l : list (string * fs_ref)) :
  (forall h e, In e l -> exists v, backend h (snd e) Close = Returns v) ->
  forall h, closes_return backend h l = true.
Proof.
  induction l as [|[p fs] l IH]; intros Hret h; [reflexivity|].
  cbn [closes_return].
  destruct (Hret h (p, fs) (or_introl eq_refl)) as [v Hv]. cbn [snd] in Hv.
  rewrite Hv. apply IH. intros h' e He. apply Hret. now right.
Qed.

(** When every [close()] of this run returns, the loop closes each
    entry in turn. *)
Lemma close_each_returns (l : list (string * fs_ref)) :
  forall w,
    closes_return backend (trace w) l = true ->
    close_each backend l w = (Ok tt, logged (close_events l) w).
Proof.
  induction l as [|[p fs] l IH]; intros w Hret.
  - cbn. unfold ret. now rewrite logged_nil.
  - cbn [close_each closes_return] in *. unfold bind. rewrite call_run.
    destruct (backend (trace w) fs Close) as [v|what]; [|discriminate].
    cbn [outcome]. rewrite IH by exact Hret.
    now rewrite logged_logged.
Qed.

(** The loop ends at the first [close()] of this run that raises. *)
Lemma close_each_raises (before after : list (string * fs_ref)) p fs what :
  forall w,
    closes_return backend (trace w) before = true ->
    backend (trace w ++ close_events before)%list fs Close = Raises what ->
    close_each backend (before ++ (p, fs) :: after) w
    = (Raise (BackendError fs what),
       logged (close_events before ++ [(fs, Close)])%list w).
Proof.
  induction before as [|[q g] before IH]; intros w Hret Hraise.
  - cbn in *. rewrite List.app_nil_r in Hraise.
    unfold bind. rewrite call_run, Hraise. reflexivity.
  - cbn [close_each closes_return app] in *. unfold bind. rewrite call_run.
    destruct (backend (trace w) g Close) as [v|bad]; [|discriminate].
    cbn [outcome]. rewrite IH.
    + now rewrite logged_logged.
    + exact Hret.
    + cbn [logged trace close_events map snd] in *.
      rewrite <- List.app_assoc. exact Hraise.
Qed.

(** Every run of the loop is of one of the two kinds. *)
Lemma first_failing_close (l : list (string * fs_ref)) :
  forall h,
    closes_return backend h l = true
    \/ exists before p fs after what,
         l = (before ++ (p, fs) :: after)%list
         /\ closes_return backend h before = true
         /\ backend (h ++ close_events before)%list fs Close = Raises what.
Proof.
  induction l as [|[p fs] l IH]; intros h; [now left|].
  cbn [closes_return].
  destruct (backend h fs Close) as [v|what] eqn:E.
  - destruct (IH (h ++ [(fs, Close)])%list)
      as [Hall | (before & q & g & after & bad & -> & Hb & Hraise)].
    + now left.
    + right. exists ((p, fs) :: before), q, g, after, bad.
      split; [reflexivity|]. split.
      * cbn [closes_return]. now rewrite E.
      * cbn [close_events map snd]. rewrite <- List.app_assoc in Hraise. exact Hraise.
  - right. exists [], p, fs, l, what.
    split; [reflexivity|]. split; [reflexivity|].
    cbn. now rewrite List.app_nil_r.
Qed.

(** C7, as amended.  With [auto_close] on: when no [close()] made in
    the run raises (each asked at the history at which [close] makes
    it), [close] closes every mounted filesystem in mount order,
    empties the table, closes the default filesystem and marks the
    [MountFS] closed.  When the [close()] of a mounted filesystem
    raises, those before it having returned in this run, the error
    propagates at once: the filesystems mounted after it and the
    default filesystem are not closed, the table is kept and the
    [MountFS] is not marked closed. *)
Theorem close_cascade (w : world) :
  auto_close (self w) = true ->
  (closes_return backend (trace w) (mounts (self w)) = true ->
   (exists v,
       backend (trace w ++ close_events (mounts (self w)))%list
               (default_fs (self w)) Close = Returns v) ->
   exists w',
     close backend w = (Ok tt, w')
     /\ trace w' = (trace w ++ close_events (mounts (self w))
                            ++ [(default_fs (self w), Close)])%list
     /\ mounts (self w') = []
     /\ closed (self w') = true)
  /\
  (forall before p fs after what,
      mounts (self w) = (before ++ (p, fs) :: after)%list ->
      closes_return backend (trace w) before = true ->
      backend (trace w ++ close_events before)%list fs Close = Raises what ->
      exists w',
        close backend w = (Raise (BackendError fs what), w')
        /\ trace w' = (trace w ++ close_events before ++ [(fs, Close)])%list
        /\ self w' = self w).
Proof.
  intros Hac. split.
  - intros Hret [v Hv]. unfold close.
    unfold bind at 1. unfold get_self at 1. rewrite Hac.
    unfold bind at 1. unfold bind at 1.
    rewrite (close_each_returns _ _ Hret).
    unfold set_mounts at 1.
    unfold bind at 1. rewrite call_run. cbn [logged trace self default_fs].
    rewrite Hv. cbn [outcome].
    eexists. split; [reflexivity|]. cbn.
    rewrite <- List.app_assoc. auto.
  - intros before p fs after what Hm Hret Hraise. unfold close.
    unfold bind at 1. unfold get_self at 1. rewrite Hac.
    unfold bind at 1. unfold bind at 1.
    rewrite Hm, (close_each_raises _ _ _ _ _ _ Hret Hraise).
    eexists. split; [reflexivity|]. cbn. auto.
Qed.

End Shutdown.

(** ** The proxied operations *)

Section Operations.
Import PyStr Path.

Variable normpath : string -> option string.
Variable validate_openbin_mode : string -> bool.
Variable validate_open_mode : string -> bool.
Variable backend : oracle.

Lemma check_open (w : world) :
  closed (self w) = false -> _check w = (Ok tt, w).
Proof. intros H. unfold _check, bind, get_self. now rewrite H. Qed.

Lemma check_closed (w : world) :
  closed (self w) = true -> _check w = (Raise FilesystemClosed, w).
Proof. intros H. unfold _check, bind, get_self. now rewrite H. Qed.

(** C8.  On an open [MountFS], [removedir] of a path whose normal form
    is [""] or ["/"] raises the root-removal error and calls no
    delegate; for any other normal form it makes the [removedir] call
    on the filesystem that the normal form resolves to, with the
    resolved path. *)
Theorem removedir_root_guard (w : world) (path n : string) :
  closed (self w) = false ->
  normpath path = Some n ->
  ((n = "" \/ n = "/") ->
   removedir normpath backend path w = (Raise (RemoveRootError n), w))
  /\
  (n <> "" -> n <> "/" ->
   forall fs p,
     _delegate normpath n w = (Ok (fs, p), w) ->
     removedir normpath backend path w
     = (outcome (backend (trace w) fs (Removedir p)) fs,
        logged [(fs, Removedir p)] w)).
Proof.
  intros Hopen Hn. split.
  - intros Hroot. unfold removedir.
    unfold bind at 1. rewrite (check_open _ Hopen).
    unfold bind at 1. unfold try_normpath. rewrite Hn. unfold ret at 1.
    now destruct Hroot as [-> | ->].
  - intros He Hs fs p Hd. unfold removedir.
    unfold bind at 1. rewrite (check_open _ Hopen).
    unfold bind at 1. unfold try_normpath at 1. rewrite Hn. unfold ret at 1.
    apply String.eqb_neq in He, Hs. rewrite He, Hs. simpl.
    unfold bind at 1. rewrite Hd. apply call_run.
Qed.

(** X16.  Every proxied method other than [removedir], on an open [MountFS]
    and with an accepted mode, makes exactly one call, on the resolved
    filesystem; the call carries the resolved path for the methods of
    [passes_resolved_path] and the caller's path for the others, and
    the caller's other arguments as [handed_on] has them. *)
Lemma proxied_single_call (w : world) (request : fs_call) (m : M pyvalue)
      (path p : string) (fs : fs_ref) :
  perform normpath validate_openbin_mode validate_open_mode backend request = Some m ->
  (forall q, request <> Removedir q) ->
  call_path request = Some path ->
  mode_accepted validate_openbin_mode validate_open_mode request = true ->
  closed (self w) = false ->
  _delegate normpath path w = (Ok (fs, p), w) ->
  exists c,
    m w = (outcome (backend (trace w) fs c) fs, logged [(fs, c)] w)
    /\ c = with_path (if passes_resolved_path request then p else path)
                     (handed_on request).
Proof.
  intros Hm Hnr Hp Hmode Hopen Hd.
  destruct request; simpl in Hm, Hp, Hmode;
    try discriminate; try (exfalso; eapply Hnr; reflexivity);
    injection Hm as <-; injection Hp as ->;
    eexists; (split; [|reflexivity]);
    unfold getinfo, listdir, makedir, openbin, remove, getbytes, gettext,
      getsize, getsyspath, gettype, geturl, hasurl, isdir, isfile, scandir,
      setinfo, validatepath, open, setbytes, settext, validate;
    rewrite ?Hmode; unfold bind, ret; cbv beta iota;
    rewrite ?(check_open _ Hopen); cbv beta iota;
    rewrite Hd; apply call_run.
Qed.

(** X17.  Every proxied method other than [settext], on a closed [MountFS]
    and with an accepted mode, raises the closed-filesystem error and
    calls no delegate. *)
Lemma closed_rejects (w : world) (request : fs_call) (m : M pyvalue) :
  perform normpath validate_openbin_mode validate_open_mode backend request = Some m ->
  (forall p c e er nl, request <> Settext p c e er nl) ->
  mode_accepted validate_openbin_mode validate_open_mode request = true ->
  closed (self w) = true ->
  m w = (Raise FilesystemClosed, w).
Proof.
  intros Hm Hns Hmode Hclosed.
  destruct request; simpl in Hm, Hmode;
    try discriminate; try (exfalso; eapply Hns; reflexivity);
    injection Hm as <-;
    unfold getinfo, listdir, makedir, openbin, remove, removedir, getbytes,
      gettext, getsize, getsyspath, gettype, geturl, hasurl, isdir, isfile,
      scandir, setinfo, validatepath, open, setbytes, validate;
    rewrite ?Hmode; unfold bind, ret; cbv beta iota;
    now rewrite (check_closed _ Hclosed).
Qed.

End Operations.

(** ** The path helpers on examples *)

Module PathExamples.
Import PyStr Path.

Example normpath_root : normpath "/" = Some "/".
Proof. reflexivity. Qed.

Example normpath_empty : normpath "" = Some "".
Proof. reflexivity. Qed.

Example normpath_plain : normpath "/data/cache" = Some "/data/cache".
Proof. reflexivity. Qed.

Example normpath_messy : normpath "data//./x/../y/" = Some "data/y".
Proof. reflexivity. Qed.

Example normpath_back : normpath "/a/../.." = None.
Proof. reflexivity. Qed.

Example forcedir_abspath : forcedir (abspath "data") = "/data/".
Proof. reflexivity. Qed.

Example forcedir_root : forcedir (abspath "") = "/".
Proof. reflexivity. Qed.

Example rstrip_ex : rstrip sep "x/y//" = "x/y".
Proof. reflexivity. Qed.

Example slice_ex : slice_from 6 "/data/x/" = "x/".
Proof. reflexivity. Qed.
End PathExamples.

(** ** Scenarios *)

Module Scenarios.
Import PyStr Path Scenario.

Example data_mounted_table :
  mounts (self data_mounted) = [("/data/", UserFS 1)]
  /\ trace data_mounted = [(DefaultFS, Makedirs "/data/" true)].
Proof. split; reflexivity. Qed.

(** Mount at /data, list /data/x: the call goes to the mounted
    filesystem as [listdir("x")]. *)
Example listdir_relative :
  listdir normpath quiet "/data/x" data_mounted
  = (Ok PyNone, logged [(UserFS 1, Listdir "x")] data_mounted).
Proof. reflexivity. Qed.

(** No mounts, [isfile("/readme.txt")]: the call goes to the default
    filesystem unchanged. *)
Example isfile_default :
  isfile normpath quiet "/readme.txt" (__init__ true)
  = (Ok PyNone, logged [(DefaultFS, Isfile "/readme.txt")] (__init__ true)).
Proof. reflexivity. Qed.

(** Mounting the [MountFS] on itself fails, whatever the path. *)
Example mount_self_rejected (path : string) :
  mount normpath quiet path SelfFS (__init__ true)
  = (Raise (ValueError "Unable to mount self"), __init__ true).
Proof. reflexivity. Qed.

(** C1.  With a filesystem mounted at /data, [getsize("/data/x")]
    resolves to that filesystem and the relative path ["x"], yet the
    delegate is called with ["/data/x"]; the same holds for
    [getsyspath], [geturl], [setinfo] and [setbytes], while [listdir]
    hands on ["x"]. *)
Theorem getsize_forwards_callers_path :
  _delegate normpath "/data/x" data_mounted = (Ok (UserFS 1, "x"), data_mounted)
  /\ getsize normpath quiet "/data/x" data_mounted
     = (Ok PyNone, logged [(UserFS 1, Getsize "/data/x")] data_mounted)
  /\ getsyspath normpath quiet "/data/x" data_mounted
     = (Ok PyNone, logged [(UserFS 1, Getsyspath "/data/x")] data_mounted)
  /\ geturl normpath quiet "/data/x" data_mounted
     = (Ok PyNone, logged [(UserFS 1, Geturl "/data/x")] data_mounted)
  /\ setinfo normpath quiet "/data/x" (PyObject 0) data_mounted
     = (Ok PyNone, logged [(UserFS 1, Setinfo "/data/x" (PyObject 0))] data_mounted)
  /\ setbytes normpath quiet "/data/x" "abc" data_mounted
     = (Ok PyNone, logged [(UserFS 1, Setbytes "/data/x" "abc")] data_mounted)
  /\ listdir normpath quiet "/data/x" data_mounted
     = (Ok PyNone, logged [(UserFS 1, Listdir "x")] data_mounted).
Proof. repeat split; reflexivity. Qed.

(** C2.  After [close()] with [auto_close] on, the [MountFS] is marked
    closed, its table is empty and [gettext] raises the
    closed-filesystem error without calling a delegate; [settext]
    raises nothing of its own and calls [settext] on the default
    filesystem. *)
Theorem settext_skips_closed_check :
  closed (self data_closed) = true
  /\ mounts (self data_closed) = []
  /\ gettext normpath quiet "/a.txt" PyNone PyNone PyNone data_closed
     = (Raise FilesystemClosed, data_closed)
  /\ settext normpath quiet "/a.txt" "x" (PyStr "utf-8") PyNone PyNone data_closed
     = (Ok PyNone,
        logged [(DefaultFS, Settext "/a.txt" "x" (PyStr "utf-8") PyNone PyNone)]
          data_closed).
Proof. repeat split; reflexivity. Qed.

(** C9.  [openbin] called with buffering 0 calls the delegate's
    [openbin] with buffering -1; [open] hands the caller's buffering
    on. *)
Theorem openbin_replaces_buffering :
  openbin normpath any_mode quiet "/data/x" "rb" 0 [] data_mounted
  = (Ok PyNone, logged [(UserFS 1, Openbin "x" "rb" (-1) [])] data_mounted)
  /\ open normpath any_mode quiet "/data/x" "rb" 0 PyNone PyNone PyNone [] data_mounted
     = (Ok PyNone,
        logged [(UserFS 1, Open "x" "rb" 0 PyNone PyNone PyNone [])] data_mounted).
Proof. split; reflexivity. Qed.

(** C6, counterexample.  Mounting at /data/cache and then at /data
    succeeds twice, and the mount path of the second entry is a prefix
    of that of the first. *)
Lemma nested_mounts_accepted :
  (mount normpath quiet "/data/cache" (UserFS 1) ;;
   mount normpath quiet "/data" (UserFS 2))%py (__init__ true)
  = (Ok tt, nested_mounted)
  /\ mounted_worlds normpath quiet nested_mounted
  /\ mounts (self nested_mounted) = [("/data/cache/", UserFS 1); ("/data/", UserFS 2)]
  /\ ~ prefix_free (mounts (self nested_mounted)).
Proof.
  split; [reflexivity|]. split; [|split; [reflexivity|]].
  - apply mounted_more
      with (w := after (mount normpath quiet "/data/cache" (UserFS 1)) (__init__ true))
           (path := "/data") (fs := UserFS 2).
    + apply mounted_more with (w := __init__ true) (path := "/data/cache") (fs := UserFS 1).
      * apply mounted_new.
      * reflexivity.
    + reflexivity.
  - intros H.
    specialize (H 1 0 ("/data/", UserFS 2) ("/data/cache/", UserFS 1)).
    simpl in H. discriminate H; auto.
Qed.

(** C7, counterexample.  With filesystems mounted at /a and /b and
    [auto_close] on, when closing the first raises, [close] raises:
    the second and the default filesystem are not closed, the table
    is kept and the [MountFS] is not marked closed. *)
Lemma close_abandons_after_error :
  auto_close (self two_mounted) = true
  /\ mounts (self two_mounted) = [("/a/", UserFS 1); ("/b/", UserFS 2)]
  /\ exists w',
       close (close_fails (UserFS 1)) two_mounted
       = (Raise (BackendError (UserFS 1) "close failed"), w')
       /\ trace w' = (trace two_mounted ++ [(UserFS 1, Close)])%list
       /\ ~ In (UserFS 2, Close) (trace w')
       /\ ~ In (DefaultFS, Close) (trace w')
       /\ mounts (self w') = mounts (self two_mounted)
       /\ closed (self w') = false.
Proof.
  split; [reflexivity|]. split; [reflexivity|].
  eexists. split; [reflexivity|]. simpl.
  repeat split; try reflexivity.
  - intros [H|[H|[H|[]]]]; discriminate.
  - intros [H|[H|[H|[]]]]; discriminate.
Qed.

End Scenarios.

(** ** The general theorems on concrete inputs *)

Module Witnesses.
Import PyStr Path Scenario.


(** [delegate_default_unchanged] at /readme.txt with a filesystem
    mounted at /data. *)
Lemma delegate_default_unchanged_witness :
  normpath "/readme.txt" = Some "/readme.txt"
  /\ _delegate normpath "/readme.txt" data_mounted
     = (Ok (DefaultFS, "/readme.txt"), data_mounted).
Proof.
  split; [reflexivity|].
  apply (delegate_default_unchanged normpath data_mounted "/readme.txt" "/readme.txt").
  - reflexivity.
  - intros e [<- | []]. reflexivity.
Defined.

(** [mount_conflict_rule] with a filesystem mounted at /data. *)
Lemma mount_conflict_rule_witness :
  (exists msg w',
      mount normpath quiet "/data/cache" (UserFS 2) data_mounted
      = (Raise (MountError msg), w'))
  /\ (exists w',
         (mount normpath quiet "/data/cache" (UserFS 1) ;;
          mount normpath quiet "/data" (UserFS 2))%py (__init__ true) = (Ok tt, w')
         /\ mounts (self w') = [("/data/cache/", UserFS 1); ("/data/", UserFS 2)])
  /\ (exists w',
         (mount normpath quiet "/data" (UserFS 1) ;;
          mount normpath quiet "/data/cache" (UserFS 2))%py (__init__ true)
         = (Raise (MountError overlap_message), w')
         /\ mounts (self w') = [("/data/", UserFS 1)]).
Proof.
  destruct (mount_conflict_rule normpath quiet) as [Hrule Hscenario].
  split.
  - apply (Hrule data_mounted "/data/cache" (UserFS 2)); [discriminate|].
    exists "/data/cache", ("/data/", UserFS 1).
    split; [reflexivity|]. split; [left; reflexivity | reflexivity].
  - apply (Hscenario eq_refl eq_refl).
    + intros h fs p. exists PyNone. reflexivity.
    + discriminate.
    + discriminate.
Defined.

(** [mounted_earlier_not_prefix] on the table of /data/cache, /data. *)
Lemma mounted_earlier_not_prefix_witness :
  mounted_worlds normpath quiet nested_mounted
  /\ earlier_not_prefix (mounts (self nested_mounted)).
Proof.
  assert (H : mounted_worlds normpath quiet nested_mounted).
  { apply mounted_more
      with (w := after (mount normpath quiet "/data/cache" (UserFS 1)) (__init__ true))
           (path := "/data") (fs := UserFS 2).
    - apply mounted_more with (w := __init__ true) (path := "/data/cache") (fs := UserFS 1).
      + apply mounted_new.
      + reflexivity.
    - reflexivity. }
  split; [exact H|].
  exact (mounted_earlier_not_prefix normpath quiet nested_mounted H).
Defined.

(** [close_cascade] on the table of /a, /b with delegates that close
    quietly, and on the table of /a, /b, /c whose first two entries hold
    the same filesystem, which raises when it is closed again. *)
Lemma close_cascade_witness :
  auto_close (self two_mounted) = true
  /\ closes_return quiet (trace two_mounted) (mounts (self two_mounted)) = true
  /\ (exists w',
         close quiet two_mounted = (Ok tt, w')
         /\ trace w' = (trace two_mounted
                          ++ [(UserFS 1, Close); (UserFS 2, Close)]
                          ++ [(DefaultFS, Close)])%list
         /\ mounts (self w') = []
         /\ closed (self w') = true)
  /\ mounts (self Reclose.mounted_twice)
     = [("/a/", UserFS 1); ("/b/", UserFS 1); ("/c/", UserFS 2)]
  /\ closes_return Reclose.second_close_fails (trace Reclose.mounted_twice)
       [("/a/", UserFS 1)] = true
  /\ (exists w',
         close Reclose.second_close_fails Reclose.mounted_twice
         = (Raise (BackendError (UserFS 1) "already closed"), w')
         /\ trace w' = (trace Reclose.mounted_twice
                          ++ [(UserFS 1, Close)] ++ [(UserFS 1, Close)])%list
         /\ self w' = self Reclose.mounted_twice).
Proof.
  split; [reflexivity|]. split; [reflexivity|]. split; [|split; [|split]].
  - apply (proj1 (close_cascade quiet two_mounted eq_refl)).
    + reflexivity.
    + exists PyNone. reflexivity.
  - reflexivity.
  - reflexivity.
  - apply (proj2 (close_cascade Reclose.second_close_fails Reclose.mounted_twice eq_refl)
             [("/a/", UserFS 1)] "/b/" (UserFS 1) [("/c/", UserFS 2)] "already closed").
    + reflexivity.
    + reflexivity.
    + reflexivity.
Defined.

(** [removedir_root_guard] at "/", at "" and at /data/x. *)
Lemma removedir_root_guard_witness :
  closed (self data_mounted) = false
  /\ removedir normpath quiet "/" data_mounted
     = (Raise (RemoveRootError "/"), data_mounted)
  /\ removedir normpath quiet "" data_mounted
     = (Raise (RemoveRootError ""), data_mounted)
  /\ removedir normpath quiet "/data/x/" data_mounted
     = (Ok PyNone, logged [(UserFS 1, Removedir "x")] data_mounted).
Proof.
  split; [reflexivity|]. split; [|split].
  - apply (proj1 (removedir_root_guard normpath quiet data_mounted "/" "/"
                    eq_refl eq_refl)).
    right. reflexivity.
  - apply (proj1 (removedir_root_guard normpath quiet data_mounted "" ""
                    eq_refl eq_refl)).
    left. reflexivity.
  - apply (proj2 (removedir_root_guard normpath quiet data_mounted "/data/x/" "/data/x"
                    eq_refl eq_refl)).
    + discriminate.
    + discriminate.
    + reflexivity.
Defined.

(** [mount_entry_survives_makedirs_error] on a new [MountFS] whose
    default filesystem refuses [makedirs]. *)
Lemma mount_entry_survives_makedirs_error_witness :
  exists w',
    mount normpath makedirs_fails "/data" (UserFS 1) (__init__ true)
    = (Raise (BackendError DefaultFS "makedirs failed"), w')
    /\ mounts (self w') = [("/data/", UserFS 1)]
    /\ trace w' = [(DefaultFS, Makedirs "/data/" true)]
    /\ closed (self w') = false.
Proof.
  apply (mount_entry_survives_makedirs_error normpath makedirs_fails
           (__init__ true) "/data" "/data" "makedirs failed" (UserFS 1)).
  - discriminate.
  - reflexivity.
  - intros e [].
  - reflexivity.
Defined.

End Witnesses.

(** ** Registration and resolution together *)

Section MountThenResolve.
Import PyStr PyStrFacts Path PathFacts.

Variable normpath : string -> option string.
Variable backend : oracle.

Lemma startswith_refl (p : string) : startswith p p = true.
Proof.
  induction p as [|c p IH]; [reflexivity|].
  cbn [startswith]. now rewrite Ascii.eqb_refl, IH.
Qed.

Lemma slice_from_length (s : string) : slice_from (String.length s) s = "".
Proof. induction s as [|c s IH]; [reflexivity | exact IH]. Qed.

Lemma find_mount_app_some (_path : string) (l l' : list (string * fs_ref)) found :
  find_mount _path l = Some found -> find_mount _path (l ++ l') = Some found.
Proof.
  induction l as [|[m b] l IH]; [discriminate|].
  cbn [find_mount app]. destruct (startswith _path m); [auto | exact IH].
Qed.

Lemma find_mount_app_none (_path : string) (l l' : list (string * fs_ref)) :
  find_mount _path l = None -> find_mount _path (l ++ l') = find_mount _path l'.
Proof.
  induction l as [|[m b] l IH]; [reflexivity|].
  cbn [find_mount app]. destruct (startswith _path m); [discriminate | exact IH].
Qed.

Lemma existsb_find_mount (_path : string) (l : list (string * fs_ref)) :
  existsb (fun e => startswith _path (fst e)) l = false <-> find_mount _path l = None.
Proof.
  induction l as [|[m b] l IH]; [split; reflexivity|].
  cbn [find_mount existsb fst]. destruct (startswith _path m); [split; discriminate|].
  exact IH.
Qed.

(** What is known when [mount] returns. *)
Lemma mount_ok_inv (w w' : world) (path : string) (fs : fs_ref) :
  mount normpath backend path fs w = (Ok tt, w') ->
  exists n,
    fs <> SelfFS
    /\ normpath path = Some n
    /\ find_mount (forcedir (abspath n)) (mounts (self w)) = None
    /\ w' = logged [(default_fs (self w), Makedirs (forcedir (abspath n)) true)]
              (with_mounts (mounts (self w) ++ [(forcedir (abspath n), fs)]) w).
Proof.
  intros H.
  destruct (fs_ref_eqb fs SelfFS) eqn:Hself.
  { apply fs_ref_eqb_eq in Hself. subst fs. rewrite mount_self in H. discriminate. }
  assert (Hfs : fs <> SelfFS) by (intros ->; discriminate).
  destruct (normpath path) as [n|] eqn:Hn.
  - rewrite (mount_run _ _ _ _ _ _ Hfs Hn) in H.
    destruct (existsb _ _) eqn:Ex; [discriminate|].
    exists n. repeat split; auto.
    + now apply existsb_find_mount.
    + now injection H as _ <-.
  - rewrite (mount_bad_path _ _ _ _ _ Hfs Hn) in H. discriminate.
Qed.

(** X1.  Registration followed by lookup: when [mount(path, fs)]
    returns, [_delegate(path)] gives [fs] and the empty relative path,
    whatever the table held before. *)
Theorem mount_then_resolve (w w' : world) (path : string) (fs : fs_ref) :
  mount normpath backend path fs w = (Ok tt, w') ->
  _delegate normpath path w' = (Ok (fs, ""), w').
Proof.
  intros H. destruct (mount_ok_inv _ _ _ _ H) as (n & _ & Hn & Hfree & ->).
  rewrite (delegate_run _ _ _ _ Hn). cbn [logged with_mounts set_mounts self mounts snd].
  rewrite (find_mount_app_none _ _ _ Hfree). cbn [find_mount].
  now rewrite startswith_refl, slice_from_length.
Qed.

(** X2.  A path that resolves to a mounted filesystem keeps resolving
    to it, with the same relative path, after any further call of
    [mount], successful or not. *)
Theorem mount_keeps_mounted_resolution
    (w w' : world) (path q n : string) (fs : fs_ref) (r : result unit) found :
  mount normpath backend path fs w = (r, w') ->
  normpath q = Some n ->
  find_mount (forcedir (abspath n)) (mounts (self w)) = Some found ->
  _delegate normpath q w' = (Ok found, w').
Proof.
  intros Hm Hn Hfound. rewrite (delegate_run _ _ _ _ Hn).
  destruct (mount_table_step _ _ _ _ _ _ _ Hm) as [-> | (p & -> & _)].
  - now rewrite Hfound.
  - now rewrite (find_mount_app_some _ _ _ _ Hfound).
Qed.

(** X3.  A path that resolved to the default filesystem before a
    successful [mount] resolves to the new filesystem afterwards exactly
    when its normalised form starts with the new mount path; otherwise
    it still resolves to the default filesystem, unchanged. *)
Theorem mount_captures_subtree
    (w w' : world) (path n q nq : string) (fs : fs_ref) :
  mount normpath backend path fs w = (Ok tt, w') ->
  normpath path = Some n ->
  normpath q = Some nq ->
  find_mount (forcedir (abspath nq)) (mounts (self w)) = None ->
  _delegate normpath q w'
  = (Ok (if startswith (forcedir (abspath nq)) (forcedir (abspath n))
         then (fs, rstrip sep (slice_from (String.length (forcedir (abspath n)))
                                 (forcedir (abspath nq))))
         else (default_fs (self w), q)), w').
Proof.
  intros Hm Hn Hq Hnone.
  destruct (mount_ok_inv _ _ _ _ Hm) as (n' & _ & Hn' & _ & ->).
  rewrite Hn in Hn'. injection Hn' as <-.
  rewrite (delegate_run _ _ _ _ Hq). cbn [logged with_mounts set_mounts self mounts snd].
  rewrite (find_mount_app_none _ _ _ Hnone). cbn [find_mount default_fs].
  now destruct (startswith (forcedir (abspath nq)) (forcedir (abspath n))).
Qed.

(** X4.  A [mount] that raises an error of its own (self-mount, a path
    that cannot be normalised, an overlap) changes nothing: the table is
    as before and no delegate has been called. *)
Theorem mount_failure_is_atomic
    (w w' : world) (path : string) (fs : fs_ref) (e : exn) :
  mount normpath backend path fs w = (Raise e, w') ->
  (forall d what, e <> BackendError d what) ->
  w' = w.
Proof.
  intros H Hown.
  destruct (fs_ref_eqb fs SelfFS) eqn:Hself.
  { apply fs_ref_eqb_eq in Hself. subst fs. rewrite mount_self in H.
    now injection H as _ <-. }
  assert (Hfs : fs <> SelfFS) by (intros ->; discriminate).
  destruct (normpath path) as [n|] eqn:Hn.
  - rewrite (mount_run _ _ _ _ _ _ Hfs Hn) in H.
    destruct (existsb _ _); [now injection H as _ <-|].
    destruct (backend _ _ _) as [v|what]; [discriminate|].
    injection H as <- _. exfalso. eapply Hown. reflexivity.
  - rewrite (mount_bad_path _ _ _ _ _ Hfs Hn) in H. now injection H as _ <-.
Qed.

(** X5.  In a table where no entry's mount path is a prefix of a later
    entry's (which [mount] maintains), no mount point is shadowed: a
    path whose normalised form is the mount path of an entry resolves to
    the filesystem of that very entry, with the empty relative path. *)
Theorem mount_point_resolves_to_own_entry
    (w : world) (path n m : string) (b : fs_ref) :
  earlier_not_prefix (mounts (self w)) ->
  In (m, b) (mounts (self w)) ->
  normpath path = Some n ->
  forcedir (abspath n) = m ->
  _delegate normpath path w = (Ok (b, ""), w).
Proof.
  intros Hinv Hin Hn Hm. rewrite (delegate_run _ _ _ _ Hn), Hm.
  destruct (find_mount_some m _ m b Hin (startswith_refl m)) as [[b' s] Hfound].
  rewrite Hfound.
  destruct (find_mount_first _ _ _ Hfound) as (before & m' & after & Hl & Hb & Hpre & Hs).
  cbn [fst snd] in Hl, Hs.
  assert (Hsame : (m', b') = (m, b)).
  { rewrite Hl in Hin. apply in_app_or in Hin as [Hin | [Hin | Hin]].
    - specialize (Hb _ Hin). cbn [fst] in Hb. rewrite startswith_refl in Hb. discriminate.
    - exact Hin.
    - apply In_nth_error in Hin as [k Hk].
      assert (Hi : nth_error (mounts (self w)) (List.length before) = Some (m', b')).
      { rewrite Hl, nth_error_app2, Nat.sub_diag by lia. reflexivity. }
      assert (Hj : nth_error (mounts (self w)) (List.length before + S k) = Some (m, b)).
      { rewrite Hl, nth_error_app2 by lia.
        replace (List.length before + S k - List.length before) with (S k) by lia.
        exact Hk. }
      assert (Hlt : List.length before < List.length before + S k) by lia.
      pose proof (Hinv _ _ _ _ Hlt Hi Hj) as Hno. cbn [fst] in Hno.
      rewrite Hpre in Hno. discriminate. }
  injection Hsame as -> ->.
  rewrite Hs, slice_from_length. reflexivity.
Qed.

(** X6.  [_delegate] is a pure lookup: it calls no delegate and changes
    nothing; it raises only when [normpath] does; and what it returns
    is either the default filesystem with the caller's path, or the
    filesystem of an entry of the table with a path that does not end
    with the separator. *)
Theorem delegate_is_a_pure_lookup (w : world) (path : string) :
  (normpath path = None
   /\ _delegate normpath path w = (Raise (IllegalBackReference path), w))
  \/
  (exists fs p,
      _delegate normpath path w = (Ok (fs, p), w)
      /\ ((fs = default_fs (self w) /\ p = path)
          \/ (exists m, In (m, fs) (mounts (self w)) /\ endswith p "/" = false))).
Proof.
  destruct (normpath path) as [n|] eqn:Hn.
  - right. rewrite (delegate_run _ _ _ _ Hn).
    destruct (find_mount _ _) as [[fs p]|] eqn:Hfound.
    + exists fs, p. split; [reflexivity|]. right.
      destruct (find_mount_first _ _ _ Hfound) as (before & m & after & Hl & _ & _ & Hs).
      cbn [fst snd] in Hl, Hs. exists m. split.
      * rewrite Hl. apply in_elt.
      * rewrite endswith_char. fold sep. rewrite Hs. apply rstrip_last.
    + exists (default_fs (self w)), path. split; [reflexivity|]. now left.
  - left. split; [reflexivity|]. now apply delegate_fails.
Qed.

End MountThenResolve.

(** ** More on [close] *)

Section ShutdownCases.
Import PyStr Path.

Variable normpath : string -> option string.
Variable backend : oracle.

(** The whole of [close] when the mounted filesystems, if they are
    closed at all, close without raising in this run. *)
Lemma close_run (w : world) :
  (auto_close (self w) = true ->
   closes_return backend (trace w) (mounts (self w)) = true) ->
  close backend w =
    let w1 := if auto_close (self w)
              then with_mounts [] (logged (close_events (mounts (self w))) w)
              else w in
    match backend (trace w1) (default_fs (self w)) Close with
    | Returns _ =>
        (Ok tt, snd (set_closed true (logged [(default_fs (self w), Close)] w1)))
    | Raises what =>
        (Raise (BackendError (default_fs (self w)) what),
         logged [(default_fs (self w), Close)] w1)
    end.
Proof.
  intros Hret. unfold close.
  unfold bind at 1. unfold get_self at 1.
  destruct (auto_close (self w)) eqn:Hac.
  - unfold bind at 1. unfold bind at 1.
    rewrite (close_each_returns backend _ _ (Hret eq_refl)).
    unfold set_mounts at 1. unfold bind at 1. rewrite call_run.
    cbn [with_mounts set_mounts snd logged self trace].
    destruct (backend _ (default_fs (self w)) Close); reflexivity.
  - unfold bind at 1. unfold ret at 1. unfold bind at 1. rewrite call_run.
    destruct (backend _ (default_fs (self w)) Close); reflexivity.
Qed.

(** X7.  With [auto_close] off, [close] leaves the mounted filesystems
    alone: the only call is [close()] on the default filesystem; the
    table is kept; the [MountFS] is marked closed when that call
    returns, and is left open when it raises. *)
Theorem close_without_auto_close (w : world) :
  auto_close (self w) = false ->
  exists r w',
    close backend w = (r, w')
    /\ trace w' = (trace w ++ [(default_fs (self w), Close)])%list
    /\ mounts (self w') = mounts (self w)
    /\ match backend (trace w) (default_fs (self w)) Close with
       | Returns _ => r = Ok tt /\ closed (self w') = true
       | Raises what =>
           r = Raise (BackendError (default_fs (self w)) what)
           /\ closed (self w') = closed (self w)
       end.
Proof.
  intros Hac. rewrite close_run by (rewrite Hac; discriminate).
  rewrite Hac. cbv zeta.
  destruct (backend (trace w) (default_fs (self w)) Close);
    eexists; eexists; (split; [reflexivity|]); cbn; auto.
Qed.

(** X8.  With [auto_close] on, when the mounted filesystems close in
    this run (each [close()] asked at the history at which it is made)
    and the [close()] of the default filesystem then raises, the error
    propagates with the table already emptied and the [MountFS] not
    marked closed. *)
Theorem close_default_failure (w : world) (what : string) :
  auto_close (self w) = true ->
  closes_return backend (trace w) (mounts (self w)) = true ->
  backend (trace w ++ close_events (mounts (self w)))%list (default_fs (self w)) Close
    = Raises what ->
  exists w',
    close backend w = (Raise (BackendError (default_fs (self w)) what), w')
    /\ trace w' = (trace w ++ close_events (mounts (self w))
                           ++ [(default_fs (self w), Close)])%list
    /\ mounts (self w') = []
    /\ closed (self w') = closed (self w).
Proof.
  intros Hac Hret Hraise. rewrite close_run by (intros _; exact Hret).
  rewrite Hac. cbv zeta. cbn [with_mounts set_mounts snd logged self trace].
  rewrite Hraise. eexists. split; [reflexivity|]. cbn.
  rewrite <- List.app_assoc. auto.
Qed.

(** X9.  [close] does not look at the closed flag: a second [close()]
    after a first one with [auto_close] on closes the default
    filesystem once more, and nothing else. *)
Theorem close_twice (w : world) :
  auto_close (self w) = true ->
  (forall h fs, exists v, backend h fs Close = Returns v) ->
  exists w',
    (close backend ;; close backend)%py w = (Ok tt, w')
    /\ trace w' = (trace w ++ close_events (mounts (self w))
                           ++ [(default_fs (self w), Close);
                               (default_fs (self w), Close)])%list
    /\ mounts (self w') = []
    /\ closed (self w') = true.
Proof.
  intros Hac Hret. unfold bind.
  rewrite close_run
    by (intros _; apply all_return_closes_return; intros h e _; apply Hret).
  rewrite Hac. cbv zeta. cbn [with_mounts set_mounts snd logged self trace].
  destruct (Hret (trace w ++ close_events (mounts (self w)))%list (default_fs (self w)))
    as [v ->].
  rewrite close_run by reflexivity.
  cbn [set_closed snd logged self trace auto_close default_fs mounts].
  rewrite Hac. cbv zeta.
  cbn [with_mounts set_mounts snd logged self trace close_events map
       auto_close default_fs mounts].
  match goal with
  | |- context [backend ?h ?fs Close] => destruct (Hret h fs) as [v' ->]
  end.
  eexists. split; [reflexivity|]. cbn.
  rewrite List.app_nil_r. repeat rewrite <- List.app_assoc. auto.
Qed.

(** What is known when [close] returns. *)
Lemma close_each_logged (l : list (string * fs_ref)) (w : world) :
  exists evs, snd (close_each backend l w) = logged evs w.
Proof.
  revert w. induction l as [|[p fs] l IH]; intros w.
  - exists []. cbn. now rewrite logged_nil.
  - cbn [close_each]. unfold bind. rewrite call_run.
    destruct (backend (trace w) fs Close); cbn [outcome snd].
    + destruct (IH (logged [(fs, Close)] w)) as [evs Hevs].
      exists ([(fs, Close)] ++ evs)%list. rewrite Hevs. apply logged_logged.
    + now exists [(fs, Close)].
Qed.

Lemma close_ok_inv (w w' : world) :
  close backend w = (Ok tt, w') ->
  closed (self w') = true
  /\ default_fs (self w') = default_fs (self w)
  /\ (auto_close (self w) = true -> mounts (self w') = []).
Proof.
  unfold close. unfold bind at 1. unfold get_self at 1.
  destruct (auto_close (self w)) eqn:Hac.
  - unfold bind at 1. unfold bind at 1.
    destruct (close_each_logged (mounts (self w)) w) as [evs Hevs].
    destruct (close_each backend (mounts (self w)) w) as [[[]|e] w1]; [|discriminate].
    cbn [snd] in Hevs. subst w1.
    unfold set_mounts at 1. unfold bind at 1. rewrite call_run.
    destruct (backend _ _ Close); cbn [outcome]; [|discriminate].
    intros [= <-]. cbn. auto.
  - unfold bind at 1. unfold ret at 1. unfold bind at 1. rewrite call_run.
    destruct (backend _ _ Close); cbn [outcome]; [|discriminate].
    intros [= <-]. cbn. repeat split; auto. discriminate.
Qed.

(** X10.  After a [close()] with [auto_close] on that returned, no path
    reaches a formerly mounted filesystem: every path that can be
    normalised resolves to the default filesystem, unchanged. *)
Theorem close_then_resolve (w w' : world) (path n : string) :
  auto_close (self w) = true ->
  close backend w = (Ok tt, w') ->
  normpath path = Some n ->
  _delegate normpath path w' = (Ok (default_fs (self w), path), w').
Proof.
  intros Hac Hclose Hn.
  destruct (close_ok_inv _ _ Hclose) as (_ & Hd & Hm).
  rewrite (delegate_run _ _ _ _ Hn), (Hm Hac), Hd. reflexivity.
Qed.

End ShutdownCases.

(** ** The interface as a whole *)

Section Interface.
Import PyStr PyStrFacts Path PathFacts.

Variable normpath : string -> option string.
Variable validate_openbin_mode : string -> bool.
Variable validate_open_mode : string -> bool.
Variable backend : oracle.

(** Case analysis on everything a proxied method looks at. *)
Ltac op_cases w :=
  unfold getinfo, listdir, makedir, openbin, remove, removedir, getbytes,
    gettext, getsize, getsyspath, gettype, geturl, hasurl, isdir, isfile,
    scandir, setinfo, validatepath, open, setbytes, settext, validate;
  unfold bind, ret, raise;
  repeat first
    [ rewrite call_run
    | match goal with
      | |- context [_check w] =>
          let Hc := fresh "Hc" in
          destruct (closed (self w)) eqn:Hc;
          [rewrite (check_closed _ Hc) | rewrite (check_open _ Hc)]
      | |- context [_delegate ?np ?p w] =>
          let Hn := fresh "Hn" in
          destruct (np p) eqn:Hn;
          [rewrite (delegate_run _ _ _ _ Hn) | rewrite (delegate_fails _ _ _ Hn)]
      | |- context [try_normpath ?np ?p] =>
          let Hn := fresh "Hn" in
          unfold try_normpath, ret, raise; destruct (np p) eqn:Hn
      | |- context [find_mount ?a ?b] =>
          destruct (find_mount a b) as [[? ?]|]
      | |- context [if ?b then _ else _] => destruct b
      end
    | progress cbv beta iota ].

(** No proxied method touches the [MountFS] object. *)
Lemma op_keeps_object (w : world) (request : fs_call) (m : M pyvalue) :
  perform normpath validate_openbin_mode validate_open_mode backend request = Some m ->
  self (snd (m w)) = self w.
Proof.
  intros Hm.
  destruct request; cbn [perform] in Hm; try discriminate; injection Hm as <-;
    op_cases w; reflexivity.
Qed.

(** X11.  Whatever the state and the arguments, a proxied method does
    one of two things: it raises an error of its own and calls no
    delegate, or it makes exactly one call on a delegate and hands the
    value or the error of that call back untouched.  In both cases the
    [MountFS] object is as before. *)
Theorem proxied_call_outcome (w : world) (request : fs_call) (m : M pyvalue) :
  perform normpath validate_openbin_mode validate_open_mode backend request = Some m ->
  (exists e, m w = (Raise e, w) /\ raised_by_mountfs e = true)
  \/
  (exists fs c, m w = (outcome (backend (trace w) fs c) fs, logged [(fs, c)] w)).
Proof.
  intros Hm.
  destruct request; cbn [perform] in Hm; try discriminate; injection Hm as <-;
    op_cases w;
    first [ left; eexists; split; reflexivity
          | right; eexists; eexists; reflexivity ].
Qed.

(** What a call of [mount], whatever its outcome, does to the object. *)
Lemma mount_step (w w' : world) (path : string) (fs : fs_ref) (r : result unit) :
  mount normpath backend path fs w = (r, w') ->
  auto_close (self w') = auto_close (self w)
  /\ default_fs (self w') = default_fs (self w)
  /\ closed (self w') = closed (self w)
  /\ (mounts (self w') = mounts (self w)
      \/ exists p,
           mounts (self w') = (mounts (self w) ++ [(p, fs)])%list
           /\ mount_path_wf p = true
           /\ fs <> SelfFS
           /\ forall e, In e (mounts (self w)) -> startswith p (fst e) = false).
Proof.
  destruct (fs_ref_eqb fs SelfFS) eqn:Hself.
  { apply fs_ref_eqb_eq in Hself. subst fs. rewrite mount_self.
    intros [= _ <-]. auto. }
  assert (Hfs : fs <> SelfFS) by (intros ->; discriminate).
  destruct (normpath path) as [n|] eqn:Hn.
  - rewrite (mount_run _ _ _ _ _ _ Hfs Hn).
    destruct (existsb _ _) eqn:Ex.
    + intros [= _ <-]. auto.
    + intros [= _ <-]. cbn. repeat split; auto. right.
      exists (forcedir (abspath n)).
      split; [reflexivity|]. split; [apply stored_path_wf|]. split; [exact Hfs|].
      intros e He. destruct (startswith _ (fst e)) eqn:E; [|reflexivity].
      assert (existsb (fun e => startswith (forcedir (abspath n)) (fst e))
                (mounts (self w)) = true) by (apply existsb_exists; eauto).
      congruence.
  - rewrite (mount_bad_path _ _ _ _ _ Hfs Hn). intros [= _ <-]. auto.
Qed.

(** What a call of [close], whatever its outcome, does to the object. *)
Lemma close_step (w w' : world) (r : result unit) :
  close backend w = (r, w') ->
  auto_close (self w') = auto_close (self w)
  /\ default_fs (self w') = default_fs (self w)
  /\ (mounts (self w') = mounts (self w) \/ mounts (self w') = [])
  /\ (closed (self w) = true -> closed (self w') = true).
Proof.
  unfold close. unfold bind at 1. unfold get_self at 1.
  destruct (auto_close (self w)) eqn:Hac.
  - unfold bind at 1. unfold bind at 1.
    destruct (close_each_logged backend (mounts (self w)) w) as [evs Hevs].
    destruct (close_each backend (mounts (self w)) w) as [[[]|e] w1];
      cbn [snd] in Hevs; subst w1.
    + unfold set_mounts at 1. unfold bind at 1. rewrite call_run.
      destruct (backend _ _ Close); cbn [outcome];
        intros [= _ <-]; cbn; auto.
    + intros [= _ <-]. cbn. auto.
  - unfold bind at 1. unfold ret at 1. unfold bind at 1. rewrite call_run.
    destruct (backend _ _ Close); cbn [outcome];
      intros [= _ <-]; cbn; auto.
Qed.

(** What any call on the interface does to the object. *)
Lemma after_call_step (a : api_call) (w : world) :
  let w' := after_call normpath validate_openbin_mode validate_open_mode backend a w in
  auto_close (self w') = auto_close (self w)
  /\ default_fs (self w') = default_fs (self w)
  /\ (closed (self w) = true -> closed (self w') = true)
  /\ (mounts (self w') = mounts (self w)
      \/ mounts (self w') = []
      \/ exists p fs,
           mounts (self w') = (mounts (self w) ++ [(p, fs)])%list
           /\ mount_path_wf p = true
           /\ fs <> SelfFS
           /\ forall e, In e (mounts (self w)) -> startswith p (fst e) = false).
Proof.
  destruct a as [path fs | | request]; cbn [after_call].
  - destruct (mount normpath backend path fs w) as [r w'] eqn:E. cbn [snd].
    destruct (mount_step _ _ _ _ _ E) as (Ha & Hd & Hc & [Hm | (p & Hm & Hp)]).
    + repeat split; auto. congruence.
    + repeat split; auto; [congruence|]. right. right. exists p, fs. auto.
  - destruct (close backend w) as [r w'] eqn:E. cbn [snd].
    destruct (close_step _ _ _ E) as (Ha & Hd & [Hm | Hm] & Hc); repeat split; auto.
  - destruct (perform _ _ _ _ request) as [m|] eqn:E.
    + rewrite (op_keeps_object _ _ _ E). auto.
    + auto.
Qed.

(** X12.  Through any sequence of calls on a new [MountFS], whatever
    their outcome, every mount path in the table is absolute and ends
    with the separator, the table never holds the [MountFS] itself, and
    the default filesystem is the one made by [__init__]. *)
Theorem reachable_table_shape (w : world) :
  reachable normpath validate_openbin_mode validate_open_mode backend w ->
  wf_mounts (mounts (self w)) = true
  /\ no_self_mount (mounts (self w)) = true
  /\ default_fs (self w) = DefaultFS.
Proof.
  induction 1 as [ac | a w _ (IHwf & IHself & IHd)].
  - repeat split.
  - destruct (after_call_step a w) as (_ & Hd & _ & Hm).
    split; [|split]; [| |congruence].
    + destruct Hm as [-> | [-> | (p & fs & -> & Hp & _)]]; auto.
      unfold wf_mounts in *. rewrite forallb_app, IHwf. cbn. now rewrite Hp.
    + destruct Hm as [-> | [-> | (p & fs & -> & _ & Hfs & _)]]; auto.
      unfold no_self_mount in *. rewrite forallb_app, IHself. cbn.
      now rewrite (fs_ref_eqb_neq _ _ Hfs).
Qed.

Lemma earlier_not_prefix_tail (a : string * fs_ref) (l : list (string * fs_ref)) :
  earlier_not_prefix (a :: l) -> earlier_not_prefix l.
Proof.
  intros H i j x y Hij Hi Hj. apply (H (S i) (S j) x y); auto. lia.
Qed.

Lemma earlier_not_prefix_NoDup (l : list (string * fs_ref)) :
  earlier_not_prefix l -> NoDup (map fst l).
Proof.
  induction l as [|a l IH]; intros H; cbn [map].
  - constructor.
  - constructor.
    + intros Hin. apply in_map_iff in Hin as (b & Hb & Hin).
      apply In_nth_error in Hin as [k Hk].
      assert (Hlt : 0 < S k) by lia.
      pose proof (H 0 (S k) a b Hlt eq_refl Hk) as Hno.
      rewrite Hb, startswith_refl in Hno. discriminate.
    + apply IH. eapply earlier_not_prefix_tail; eauto.
Qed.

(** X13.  Through any sequence of calls on a new [MountFS], whatever
    their outcome, no entry's mount path is a prefix of the mount path
    of a later entry, and no two entries have the same mount path. *)
Theorem reachable_no_shadowed_mount (w : world) :
  reachable normpath validate_openbin_mode validate_open_mode backend w ->
  earlier_not_prefix (mounts (self w))
  /\ NoDup (map fst (mounts (self w))).
Proof.
  intros Hreach.
  assert (Hinv : earlier_not_prefix (mounts (self w))).
  { induction Hreach as [ac | a w _ IH].
    - apply earlier_not_prefix_nil.
    - destruct (after_call_step a w) as (_ & _ & _ & Hm).
      destruct Hm as [-> | [-> | (p & fs & -> & _ & _ & Hfree)]].
      + exact IH.
      + apply earlier_not_prefix_nil.
      + now apply earlier_not_prefix_snoc. }
  split; [exact Hinv | now apply earlier_not_prefix_NoDup].
Qed.

(** X14.  Nothing reopens a [MountFS]: once the closed flag is set it
    stays set through any further sequence of calls, and neither
    [auto_close] nor the default filesystem ever changes. *)
Theorem calls_never_reopen (calls : list api_call) (w : world) :
  let w' := fold_left
              (fun w a => after_call normpath validate_openbin_mode
                            validate_open_mode backend a w) calls w in
  auto_close (self w') = auto_close (self w)
  /\ default_fs (self w') = default_fs (self w)
  /\ (closed (self w) = true -> closed (self w') = true).
Proof.
  revert w. induction calls as [|a calls IH]; intros w; cbn [fold_left].
  - auto.
  - destruct (after_call_step a w) as (Ha & Hd & Hc & _).
    destruct (IH (after_call normpath validate_openbin_mode validate_open_mode
                    backend a w)) as (Ha' & Hd' & Hc').
    cbv zeta in *. repeat split; [congruence | congruence | auto].
Qed.

(** X15.  For a path outside every mount, [removedir] hands the default
    filesystem the normalised path, not the caller's: the path is
    normalised for the root check before it is resolved. *)
Theorem removedir_normalises_for_default (w : world) (path n n' : string) :
  closed (self w) = false ->
  normpath path = Some n ->
  n <> "" -> n <> "/" ->
  normpath n = Some n' ->
  find_mount (forcedir (abspath n')) (mounts (self w)) = None ->
  removedir normpath backend path w
  = (outcome (backend (trace w) (default_fs (self w)) (Removedir n)) (default_fs (self w)),
     logged [(default_fs (self w), Removedir n)] w).
Proof.
  intros Hopen Hn He Hs Hn' Hnone. unfold removedir.
  unfold bind at 1. rewrite (check_open _ Hopen).
  unfold bind at 1. unfold try_normpath at 1. rewrite Hn. unfold ret at 1.
  apply String.eqb_neq in He, Hs. rewrite He, Hs. cbn [orb].
  unfold bind at 1. rewrite (delegate_run _ _ _ _ Hn'), Hnone. apply call_run.
Qed.

Lemma reachable_after_calls (calls : list api_call) (w : world) :
  reachable normpath validate_openbin_mode validate_open_mode backend w ->
  reachable normpath validate_openbin_mode validate_open_mode backend
    (fold_left
       (fun w a => after_call normpath validate_openbin_mode validate_open_mode
                     backend a w) calls w).
Proof.
  revert w. induction calls as [|a calls IH]; intros w Hw; cbn [fold_left].
  - exact Hw.
  - apply IH. now apply reachable_call.
Qed.

End Interface.

(** ** The further theorems on concrete inputs *)

Module MoreWitnesses.
Import PyStr Path Scenario Journey.

Lemma mount_then_resolve_witness :
  mount normpath quiet "/data" (UserFS 1) (__init__ true) = (Ok tt, data_mounted)
  /\ _delegate normpath "/data" data_mounted = (Ok (UserFS 1, ""), data_mounted).
Proof.
  split; [reflexivity|].
  apply (mount_then_resolve normpath quiet (__init__ true) data_mounted "/data" (UserFS 1)).
  reflexivity.
Defined.

Lemma mount_keeps_mounted_resolution_witness :
  find_mount (forcedir (abspath "/data/x")) (mounts (self data_mounted))
  = Some (UserFS 1, "x")
  /\ _delegate normpath "/data/x"
       (after (mount normpath quiet "/other" (UserFS 2)) data_mounted)
     = (Ok (UserFS 1, "x"),
        after (mount normpath quiet "/other" (UserFS 2)) data_mounted).
Proof.
  split; [reflexivity|].
  apply (mount_keeps_mounted_resolution normpath quiet data_mounted
           (after (mount normpath quiet "/other" (UserFS 2)) data_mounted)
           "/other" "/data/x" "/data/x" (UserFS 2) (Ok tt) (UserFS 1, "x")).
  - reflexivity.
  - reflexivity.
  - reflexivity.
Defined.

Lemma mount_captures_subtree_witness :
  _delegate normpath "/data/x/y" (__init__ true) = (Ok (DefaultFS, "/data/x/y"), __init__ true)
  /\ _delegate normpath "/data/x/y" data_mounted
     = (Ok (if startswith (forcedir (abspath "/data/x/y")) (forcedir (abspath "/data"))
            then (UserFS 1,
                  rstrip sep (slice_from (String.length (forcedir (abspath "/data")))
                                (forcedir (abspath "/data/x/y"))))
            else (DefaultFS, "/data/x/y")), data_mounted)
  /\ rstrip sep (slice_from (String.length (forcedir (abspath "/data")))
                   (forcedir (abspath "/data/x/y"))) = "x/y".
Proof.
  split; [reflexivity|]. split; [|reflexivity].
  apply (mount_captures_subtree normpath quiet (__init__ true) data_mounted
           "/data" "/data" "/data/x/y" "/data/x/y" (UserFS 1)).
  - reflexivity.
  - reflexivity.
  - reflexivity.
  - reflexivity.
Defined.

Lemma mount_failure_is_atomic_witness :
  mount normpath quiet "/data/cache" (UserFS 2) data_mounted
  = (Raise (MountError overlap_message), data_mounted)
  /\ data_mounted = data_mounted.
Proof.
  split; [reflexivity|].
  apply (mount_failure_is_atomic normpath quiet data_mounted data_mounted
           "/data/cache" (UserFS 2) (MountError overlap_message)).
  - reflexivity.
  - intros d what. discriminate.
Defined.

Lemma mount_point_resolves_to_own_entry_witness :
  mounts (self nested_mounted) = [("/data/cache/", UserFS 1); ("/data/", UserFS 2)]
  /\ _delegate normpath "/data" nested_mounted = (Ok (UserFS 2, ""), nested_mounted)
  /\ _delegate normpath "/data/cache/" nested_mounted = (Ok (UserFS 1, ""), nested_mounted).
Proof.
  assert (Hinv : earlier_not_prefix (mounts (self nested_mounted))).
  { intros i j a b Hij Hi Hj.
    destruct i as [|[|i]]; destruct j as [|[|j]];
      try (exfalso; inversion Hij; fail).
    - injection Hi as <-. injection Hj as <-. reflexivity.
    - destruct j; discriminate Hj.
    - exfalso. inversion Hij as [|? H1]. inversion H1.
    - destruct j; discriminate Hj.
    - destruct i; discriminate Hi.
    - destruct i; discriminate Hi. }
  split; [reflexivity|]. split.
  - apply (mount_point_resolves_to_own_entry normpath nested_mounted
             "/data" "/data" "/data/" (UserFS 2) Hinv).
    + right. left. reflexivity.
    + reflexivity.
    + reflexivity.
  - apply (mount_point_resolves_to_own_entry normpath nested_mounted
             "/data/cache/" "/data/cache" "/data/cache/" (UserFS 1) Hinv).
    + left. reflexivity.
    + reflexivity.
    + reflexivity.
Defined.

Lemma close_without_auto_close_witness :
  auto_close (self kept_open_mounts) = false
  /\ exists r w',
       close quiet kept_open_mounts = (r, w')
       /\ trace w' = (trace kept_open_mounts ++ [(DefaultFS, Close)])%list
       /\ mounts (self w') = [("/data/", UserFS 1)]
       /\ r = Ok tt /\ closed (self w') = true.
Proof.
  split; [reflexivity|].
  destruct (close_without_auto_close quiet kept_open_mounts eq_refl)
    as (r & w' & Hc & Ht & Hm & Hr & Hcl).
  exists r, w'. repeat split; assumption.
Defined.

Lemma close_default_failure_witness :
  auto_close (self Reclose.default_mounted) = true
  /\ mounts (self Reclose.default_mounted) = [("/a/", UserFS 1); ("/d/", DefaultFS)]
  /\ closes_return Reclose.second_close_fails (trace Reclose.default_mounted)
       (mounts (self Reclose.default_mounted)) = true
  /\ exists w',
       close Reclose.second_close_fails Reclose.default_mounted
       = (Raise (BackendError DefaultFS "already closed"), w')
       /\ trace w' = (trace Reclose.default_mounted
                        ++ [(UserFS 1, Close); (DefaultFS, Close)]
                        ++ [(DefaultFS, Close)])%list
       /\ mounts (self w') = []
       /\ closed (self w') = false.
Proof.
  split; [reflexivity|]. split; [reflexivity|]. split; [reflexivity|].
  apply (close_default_failure Reclose.second_close_fails Reclose.default_mounted
           "already closed").
  - reflexivity.
  - reflexivity.
  - reflexivity.
Defined.

Lemma close_twice_witness :
  exists w',
    (close quiet ;; close quiet)%py two_mounted = (Ok tt, w')
    /\ trace w' = (trace two_mounted
                     ++ [(UserFS 1, Close); (UserFS 2, Close)]
                     ++ [(DefaultFS, Close); (DefaultFS, Close)])%list
    /\ mounts (self w') = []
    /\ closed (self w') = true.
Proof.
  apply (close_twice quiet two_mounted).
  - reflexivity.
  - intros h fs. exists PyNone. reflexivity.
Defined.

Lemma close_then_resolve_witness :
  close quiet data_mounted = (Ok tt, data_closed)
  /\ _delegate normpath "/data/x" data_closed = (Ok (DefaultFS, "/data/x"), data_closed).
Proof.
  split; [reflexivity|].
  apply (close_then_resolve normpath quiet data_mounted data_closed "/data/x" "/data/x").
  - reflexivity.
  - reflexivity.
  - reflexivity.
Defined.

Lemma proxied_call_outcome_witness :
  ((exists e, listdir normpath quiet "/data/x" data_closed = (Raise e, data_closed)
              /\ raised_by_mountfs e = true)
   \/ (exists fs c,
          listdir normpath quiet "/data/x" data_closed
          = (outcome (quiet (trace data_closed) fs c) fs, logged [(fs, c)] data_closed)))
  /\
  ((exists e, listdir normpath quiet "/data/x" data_mounted = (Raise e, data_mounted)
              /\ raised_by_mountfs e = true)
   \/ (exists fs c,
          listdir normpath quiet "/data/x" data_mounted
          = (outcome (quiet (trace data_mounted) fs c) fs, logged [(fs, c)] data_mounted))).
Proof.
  split.
  - apply (proxied_call_outcome normpath any_mode any_mode quiet data_closed
             (Listdir "/data/x")). reflexivity.
  - apply (proxied_call_outcome normpath any_mode any_mode quiet data_mounted
             (Listdir "/data/x")). reflexivity.
Defined.

Lemma reachable_table_shape_witness :
  mounts (self (run_session session (__init__ true))) = []
  /\ mounts (self (run_session (firstn 4 session) (__init__ true)))
     = [("/data/cache/", UserFS 1); ("/data/", UserFS 2)]
  /\ wf_mounts (mounts (self (run_session (firstn 4 session) (__init__ true)))) = true
  /\ no_self_mount (mounts (self (run_session (firstn 4 session) (__init__ true)))) = true
  /\ default_fs (self (run_session (firstn 4 session) (__init__ true))) = DefaultFS.
Proof.
  split; [reflexivity|]. split; [reflexivity|].
  apply (reachable_table_shape normpath any_mode any_mode quiet).
  apply (reachable_after_calls normpath any_mode any_mode quiet (firstn 4 session)).
  apply reachable_new.
Defined.

Lemma reachable_no_shadowed_mount_witness :
  earlier_not_prefix (mounts (self (run_session (firstn 4 session) (__init__ true))))
  /\ NoDup (map fst (mounts (self (run_session (firstn 4 session) (__init__ true))))).
Proof.
  apply (reachable_no_shadowed_mount normpath any_mode any_mode quiet).
  apply (reachable_after_calls normpath any_mode any_mode quiet (firstn 4 session)).
  apply reachable_new.
Defined.

Lemma removedir_normalises_for_default_witness :
  removedir normpath quiet "/tmp//a/" data_mounted
  = (Ok PyNone, logged [(DefaultFS, Removedir "/tmp/a")] data_mounted)
  /\ remove normpath quiet "/tmp//a/" data_mounted
     = (Ok PyNone, logged [(DefaultFS, Remove "/tmp//a/")] data_mounted).
Proof.
  split; [|reflexivity].
  apply (removedir_normalises_for_default normpath quiet data_mounted
           "/tmp//a/" "/tmp/a" "/tmp/a").
  - reflexivity.
  - reflexivity.
  - discriminate.
  - discriminate.
  - reflexivity.
  - reflexivity.
Defined.

Lemma proxied_single_call_witness :
  exists c,
    makedir normpath quiet "/data/x/" (PyInt 493) true data_mounted
    = (outcome (quiet (trace data_mounted) (UserFS 1) c) (UserFS 1),
       logged [(UserFS 1, c)] data_mounted)
    /\ c = Makedir "x" (PyInt 493) true.
Proof.
  apply (proxied_single_call normpath any_mode any_mode quiet data_mounted
           (Makedir "/data/x/" (PyInt 493) true)
           (makedir normpath quiet "/data/x/" (PyInt 493) true)
           "/data/x/" "x" (UserFS 1)).
  - reflexivity.
  - intros q. discriminate.
  - reflexivity.
  - reflexivity.
  - reflexivity.
  - reflexivity.
Defined.

Lemma closed_rejects_witness :
  closed (self data_closed) = true
  /\ setbytes normpath quiet "/data/x" "abc" data_closed
     = (Raise FilesystemClosed, data_closed).
Proof.
  split; [reflexivity|].
  apply (closed_rejects normpath any_mode any_mode quiet data_closed
           (Setbytes "/data/x" "abc") (setbytes normpath quiet "/data/x" "abc")).
  - reflexivity.
  - intros p c e er nl. discriminate.
  - reflexivity.
  - reflexivity.
Defined.

End MoreWitnesses.
